(** * Concerto vocabulary manager: a shallow embedding and its properties

    Source: packages/concerto-vocabulary/lib/vocabularymanager.js

    JavaScript strings are modelled as Stdlib strings of ASCII characters,
    numbers that serve as string indexes as [Z] (so that the [-1] of
    [lastIndexOf] is the value the code tests), arrays as lists, and the
    object [this.vocabularies] as an insertion-ordered property list: every
    key the manager writes contains a ['/'], so none is an array index and
    [Object.values] enumerates the values in insertion order. *)

From Equations Require Import Equations.
From Stdlib Require Import String Ascii List ZArith Lia Bool Arith.
Import ListNotations.

Local Open Scope string_scope.
Local Open Scope Z_scope.

(** ** String primitives of the host language *)

Module JSString.

(** [s.lastIndexOf(c)] for a one-character search string: the index of the
    last occurrence of [c], or [-1]. *)
Fixpoint lastIndexOf (c : ascii) (s : string) : Z :=
  match s with
  | EmptyString => -1
  | String a r =>
      let i := lastIndexOf c r in
      if 0 <=? i then i + 1
      else if Ascii.eqb a c then 0 else -1
  end.

(** [s.substring(0, pos)] for [0 <= pos]. *)
Definition substring0 (pos : Z) (s : string) : string :=
  String.substring 0 (Z.to_nat pos) s.

Definition is_upper (c : ascii) : bool :=
  let n := nat_of_ascii c in (Nat.leb 65 n && Nat.leb n 90)%bool.

Definition lower_char (c : ascii) : ascii :=
  if is_upper c then ascii_of_nat (nat_of_ascii c + 32) else c.

(** [s.toLowerCase()] on ASCII text. *)
Fixpoint toLowerCase (s : string) : string :=
  match s with
  | EmptyString => EmptyString
  | String a r => String (lower_char a) (toLowerCase r)
  end.

(** Occurrences of a character: with ["-"] this is the number of
    separators of a language tag. *)
Fixpoint count (c : ascii) (s : string) : nat :=
  match s with
  | EmptyString => 0%nat
  | String a r => ((if Ascii.eqb a c then 1 else 0) + count c r)%nat
  end.

Fixpoint has_upper (s : string) : bool :=
  match s with
  | EmptyString => false
  | String a r => (is_upper a || has_upper r)%bool
  end.

Fixpoint contains (c : ascii) (s : string) : bool :=
  match s with
  | EmptyString => false
  | String a r => (Ascii.eqb a c || contains c r)%bool
  end.

End JSString.

Import JSString.

Definition dash : ascii := "-"%char.
Definition slash : ascii := "/"%char.

(** Number of ['-'] separators of a tag, and number of its subtags. *)
Definition dashes (locale : string) : nat := count dash locale.
Definition subtags (locale : string) : nat := S (dashes locale).

Section StringFacts.

Lemma lastIndexOf_lower_bound c s : -1 <= lastIndexOf c s.
Proof.
    induction s as [|a r IH]; simpl; [lia|].
    destruct (0 <=? lastIndexOf c r) eqn:E.
    - apply Z.leb_le in E. lia.
    - destruct (Ascii.eqb a c); lia.
Qed.

Lemma lastIndexOf_upper_bound c s : lastIndexOf c s < Z.of_nat (String.length s).
Proof.
    induction s as [|a r IH]; simpl String.length; simpl lastIndexOf; [lia|].
    destruct (0 <=? lastIndexOf c r) eqn:E.
    - lia.
    - destruct (Ascii.eqb a c); lia.
Qed.

(** The two tests the source uses on the index agree. *)
Lemma lastIndexOf_tests c s : (lastIndexOf c s =? -1) = negb (0 <=? lastIndexOf c s).
Proof.
    pose proof (lastIndexOf_lower_bound c s).
    destruct (0 <=? lastIndexOf c s) eqn:E; simpl.
    - apply Z.leb_le in E. apply Z.eqb_neq. lia.
    - apply Z.leb_gt in E. apply Z.eqb_eq. lia.
Qed.

Lemma lastIndexOf_none c s : lastIndexOf c s < 0 <-> count c s = 0%nat.
Proof.
    induction s as [|a r IH]; simpl; [split; [reflexivity|lia]|].
    pose proof (lastIndexOf_lower_bound c r).
    destruct (0 <=? lastIndexOf c r) eqn:E.
    - apply Z.leb_le in E. split; [lia|].
      intros Hc. destruct (Ascii.eqb a c); [discriminate|].
      simpl in Hc. apply IH in Hc. lia.
    - apply Z.leb_gt in E. apply IH in E.
      destruct (Ascii.eqb a c); simpl; split; intros; try lia; try discriminate.
Qed.

Lemma substring0_cons a r p :
    0 <= p -> substring0 (p + 1) (String a r) = String a (substring0 p r).
Proof.
    intros Hp. unfold substring0.
    replace (Z.to_nat (p + 1)) with (S (Z.to_nat p)) by lia.
    reflexivity.
Qed.

(** Cutting at the last separator removes exactly one separator. *)
Lemma count_truncate c s :
    0 <= lastIndexOf c s ->
    S (count c (substring0 (lastIndexOf c s) s)) = count c s.
Proof.
    induction s as [|a r IH]; simpl; [lia|].
    destruct (0 <=? lastIndexOf c r) eqn:E.
    - intros _. apply Z.leb_le in E.
      rewrite substring0_cons by assumption. simpl.
      rewrite <- (IH E). lia.
    - apply Z.leb_gt in E. apply lastIndexOf_none in E.
      destruct (Ascii.eqb a c); [|lia].
      intros _. unfold substring0. simpl. lia.
Qed.

Lemma dashes_truncate locale :
    0 <= lastIndexOf dash locale ->
    (dashes (substring0 (lastIndexOf dash locale) locale) < dashes locale)%nat.
Proof.
    intros H. unfold dashes. rewrite <- (count_truncate dash locale H). lia.
Qed.

End StringFacts.

(** ** Property lists: the JavaScript object used as a map *)

Module JSObject.

Section Obj.
Context {V : Type}.

Definition t := list (string * V).

Definition empty : t := [].

Definition keys (o : t) : list string := map fst o.

(** [Object.values(o)]. *)
Definition values (o : t) : list V := map snd o.

(** [o[k]]. *)
Fixpoint get (k : string) (o : t) : option V :=
  match o with
  | [] => None
  | (k', v) :: r => if String.eqb k' k then Some v else get k r
  end.

(** [o[k] = v]: an existing property keeps its place, a new one goes
    last. *)
Fixpoint set (k : string) (v : V) (o : t) : t :=
  match o with
  | [] => [(k, v)]
  | (k', v') :: r =>
      if String.eqb k' k then (k', v) :: r else (k', v') :: set k v r
  end.

(** [delete o[k]]. *)
Definition delete (k : string) (o : t) : t :=
  filter (fun kv => negb (String.eqb (fst kv) k)) o.

(** An object holds each property name once. *)
Definition wf (o : t) : Prop := NoDup (keys o).

End Obj.

Arguments t : clear implicits.

End JSObject.

(** [arr.find(p)]: the first element satisfying [p], else [undefined]. *)
Definition array_find {A : Type} (p : A -> bool) (arr : list A) : option A :=
  List.find p arr.

(** ** The Vocabulary collaborator (./vocabulary) *)

Module Vocabulary.

(** The parsed YAML document handed to the constructor. *)
Record Doc := {
  doc_namespace : string;
  doc_locale : string;
  doc_terms : list ((string * option string) * string)
}.

(** Modelled from the spec: the class Vocabulary of ./vocabulary is not
    part of the sources at hand. An entry has a namespace, a locale
    (a language tag, case-normalized to lowercase) and a mapping from
    (declarationName, optional propertyName) to a display string. *)
Record t := {
  voc_namespace : string;
  voc_locale : string;
  voc_terms : list ((string * option string) * string)
}.

(** Modelled from the spec: [new Vocabulary(manager, doc)] keeps the
    namespace and the terms and case-normalizes the locale. *)
Definition new (d : Doc) : t :=
  {| voc_namespace := doc_namespace d;
     voc_locale := toLowerCase (doc_locale d);
     voc_terms := doc_terms d |}.

Definition getNamespace (v : t) : string := voc_namespace v.
Definition getLocale (v : t) : string := voc_locale v.

(** Modelled from the spec: the identifier is [namespace/locale]. *)
Definition identifier (ns loc : string) : string := ns ++ "/" ++ loc.
Definition getIdentifier (v : t) : string :=
  identifier (getNamespace v) (getLocale v).

Definition key_eqb (k1 k2 : string * option string) : bool :=
  (String.eqb (fst k1) (fst k2) &&
   match snd k1, snd k2 with
   | None, None => true
   | Some p1, Some p2 => String.eqb p1 p2
   | _, _ => false
   end)%bool.

(** Modelled from the spec: [getTerm(declarationName, propertyName?)]
    yields the display string of the mapping, or null. *)
Definition getTerm (v : t) (declarationName : string)
  (propertyName : option string) : option string :=
  match List.find (fun e => key_eqb (fst e) (declarationName, propertyName))
                  (voc_terms v) with
  | Some e => Some (snd e)
  | None => None
  end.

(** What [validate(modelFile)] reports: both fields are optional. *)
Record Errors := {
  err_missingTerms : option (list string);
  err_additionalTerms : option (list string)
}.

End Vocabulary.

(** ** The manager *)

Module VocabularyManager.

Import Vocabulary.

(** The instance state: [this.vocabularies], keyed by namespace/locale. *)
Record t := { vocabularies : JSObject.t Vocabulary.t }.

Inductive Error :=
| InvalidArgument   (* 'Vocabulary contents must be specified' *)
| DuplicateEntry    (* 'Vocabulary has already been added.' *)
| ParseError.       (* raised by the YAML library *)

(** How a call that may throw ends. *)
Inductive Completion := Normal | Throw (e : Error).

Definition constructor : t := {| vocabularies := JSObject.empty |}.

Definition clear (this : t) : t := {| vocabularies := JSObject.empty |}.

Definition removeVocabulary (this : t) (namespace locale : string) : t :=
  {| vocabularies :=
       JSObject.delete (namespace ++ "/" ++ locale) (vocabularies this) |}.

(** [options]: absent, or an object whose [localeMatcher] may be absent. *)
Record Options := { localeMatcher : option string }.

(** [options?.localeMatcher !== 'lookup'] *)
Definition not_lookup (options : option Options) : bool :=
  match options with
  | Some {| localeMatcher := Some m |} => negb (String.eqb m "lookup")
  | _ => true
  end.

Definition getVocabulariesForNamespace (this : t) (namespace : string)
  : list Vocabulary.t :=
  filter (fun v => String.eqb (getNamespace v) namespace)
         (JSObject.values (vocabularies this)).

Definition getVocabulariesForLocale (this : t) (locale : string)
  : list Vocabulary.t :=
  filter (fun v => String.eqb (getLocale v) (toLowerCase locale))
         (JSObject.values (vocabularies this)).

(** Keeps the equation of a test in the context of its branches. *)
Definition inspect {A : Type} (a : A) : {b : A | a = b} := exist _ a eq_refl.

(** [findVocabulary]: the do-while loop, one iteration per call. The loop
    leaves with [null] when the matcher is not 'lookup' or when the tag has
    no ['-'] left; otherwise it goes round with the tag cut at its last
    ['-']. The number of separators decreases at every round. *)
Equations? findVocabulary (requestedLocale : string)
  (vocs : list Vocabulary.t) (options : option Options)
  : option Vocabulary.t by wf (dashes requestedLocale) lt :=
findVocabulary locale vocs options
  with array_find (fun v => String.eqb (getLocale v) locale) vocs := {
  | Some voc => Some voc
  | None with not_lookup options := {
    | true => None
    | false with inspect (lastIndexOf dash locale =? -1) := {
      | exist _ true _ => None
      | exist _ false Hpos =>
          findVocabulary (substring0 (lastIndexOf dash locale) locale)
                         vocs options } } }.
Proof.
  apply dashes_truncate.
  pose proof (lastIndexOf_lower_bound dash locale).
  apply Z.eqb_neq in Hpos. lia.
Qed.

Definition getVocabulary (this : t) (namespace locale : string)
  (options : option Options) : option Vocabulary.t :=
  let vocs := getVocabulariesForNamespace this namespace in
  findVocabulary (toLowerCase locale) vocs options.

(** JavaScript truthiness of a [string | null] value. *)
Definition truthy (term : option string) : bool :=
  match term with
  | Some s => negb (String.eqb s "")
  | None => false
  end.

(** The first half of [getTerm]: the term of the vocabulary found for the
    locale (called without options), or [null]. *)
Definition term_at (this : t) (namespace locale declarationName : string)
  (propertyName : option string) : option string :=
  match getVocabulary this namespace locale None with
  | Some voc => Vocabulary.getTerm voc declarationName propertyName
  | None => None
  end.

Equations? getTerm (this : t) (namespace locale declarationName : string)
  (propertyName : option string) : option string
  by wf (dashes locale) lt :=
getTerm this namespace locale declarationName propertyName
  with inspect (truthy (term_at this namespace locale declarationName
                                propertyName)) := {
  | exist _ true _ =>
      term_at this namespace locale declarationName propertyName
  | exist _ false _
      with inspect (0 <=? lastIndexOf dash locale) := {
      | exist _ true Hdash =>
          getTerm this namespace
                  (substring0 (lastIndexOf dash locale) locale)
                  declarationName propertyName
      | exist _ false _ => None } }.
Proof.
  apply dashes_truncate. apply Z.leb_le. exact Hdash.
Qed.

Section AddVocabulary.

(** [YAML.parse] of the yaml library, as far as it yields the documents
    the Vocabulary constructor takes: [None] when the call throws. *)
Variable YAML_parse : string -> option Vocabulary.Doc.

(** [!contents] for a [string | undefined] argument. *)
Definition not_specified (contents : option string) : bool :=
  match contents with
  | Some c => String.eqb c ""
  | None => true
  end.

Definition text_of (contents : option string) : string :=
  match contents with Some c => c | None => "" end.

(** [addVocabulary]: the completion of the call and the state it leaves.
    Every [throw] precedes the only assignment. *)
Definition addVocabulary (this : t) (contents : option string)
  : Completion * t :=
  if not_specified contents then (Throw InvalidArgument, this)
  else
    match YAML_parse (text_of contents) with
    | None => (Throw ParseError, this)
    | Some d =>
        let voc := Vocabulary.new d in
        let existing :=
          array_find
            (fun v => String.eqb (Vocabulary.getIdentifier v)
                                 (Vocabulary.getIdentifier voc))
            (JSObject.values (vocabularies this)) in
        match existing with
        | Some _ => (Throw DuplicateEntry, this)
        | None =>
            (Normal,
             {| vocabularies :=
                  JSObject.set (Vocabulary.getIdentifier voc) voc
                               (vocabularies this) |})
        end
    end.

End AddVocabulary.

Section Validate.

(** The model side: model files are opaque but for their namespace, and
    [voc.validate(model)] of the Vocabulary collaborator is taken as given. *)
Variable ModelFile : Type.
Variable ModelFile_getNamespace : ModelFile -> string.
Variable Vocabulary_validate : Vocabulary.t -> ModelFile -> Vocabulary.Errors.

Record ModelManager := {
  getModelFiles : list ModelFile;
  getModelFile : string -> option ModelFile
}.

Record VocResult := {
  res_locale : string;
  res_namespace : string;
  missingTerms : list string;
  additionalTerms : list string
}.

Record ValidationResult := {
  missingVocabularies : list string;
  additionalVocabularies : list Vocabulary.t;
  result_vocabularies : JSObject.t VocResult
}.

(** [arr.filter(m => m !== null)] *)
Fixpoint filter_not_null {A : Type} (arr : list (option A)) : list A :=
  match arr with
  | [] => []
  | Some a :: r => a :: filter_not_null r
  | None :: r => filter_not_null r
  end.

Definition is_null {A : Type} (o : option A) : bool :=
  match o with Some _ => false | None => true end.

(** The body of the [forEach] callback, acting on [result.vocabularies]. *)
Definition validate_entry (modelManager : ModelManager)
  (acc : JSObject.t VocResult) (voc : Vocabulary.t) : JSObject.t VocResult :=
  let vocResult :=
    {| res_locale := Vocabulary.getLocale voc;
       res_namespace := Vocabulary.getNamespace voc;
       missingTerms := [];
       additionalTerms := [] |} in
  match getModelFile modelManager (Vocabulary.getNamespace voc) with
  | Some model =>
      let errors := Vocabulary_validate voc model in
      let vocResult :=
        match Vocabulary.err_missingTerms errors with
        | Some l =>
            {| res_locale := res_locale vocResult;
               res_namespace := res_namespace vocResult;
               missingTerms := missingTerms vocResult ++ l;
               additionalTerms := additionalTerms vocResult |}
        | None => vocResult
        end in
      let vocResult :=
        match Vocabulary.err_additionalTerms errors with
        | Some l =>
            {| res_locale := res_locale vocResult;
               res_namespace := res_namespace vocResult;
               missingTerms := missingTerms vocResult;
               additionalTerms := additionalTerms vocResult ++ l |}
        | None => vocResult
        end in
      JSObject.set (res_namespace vocResult ++ "/" ++ res_locale vocResult)
                   vocResult acc
  | None => acc
  end.

Definition validate (this : t) (modelManager : ModelManager)
  : ValidationResult :=
  let missingVocabularies :=
    filter_not_null
      (map (fun m =>
              if Nat.eqb (List.length
                            (getVocabulariesForNamespace this
                               (ModelFile_getNamespace m))) 0
              then Some (ModelFile_getNamespace m) else None)
           (getModelFiles modelManager)) in
  let additionalVocabularies :=
    filter (fun v => is_null (getModelFile modelManager
                                           (Vocabulary.getNamespace v)))
           (JSObject.values (vocabularies this)) in
  {| missingVocabularies := missingVocabularies;
     additionalVocabularies := additionalVocabularies;
     result_vocabularies :=
       fold_left (validate_entry modelManager)
                 (JSObject.values (vocabularies this)) JSObject.empty |}.

End Validate.

End VocabularyManager.


Import VocabularyManager.

(** ** Reference definitions the operations are compared with *)

(** The prefixes of a tag that stop just before one of its ['-'], shortest
    first. *)
Fixpoint dash_prefixes (tag : string) : list string :=
  match tag with
  | EmptyString => []
  | String a r =>
      (if Ascii.eqb a dash then [EmptyString] else [])
        ++ map (String a) (dash_prefixes r)
  end.

(** Progressive generalization of a tag: the tag itself, then the tag
    without its last subtag, and so on down to its first subtag. *)
Definition generalizations (tag : string) : list string :=
  tag :: rev (dash_prefixes tag).

Fixpoint first_some {A B : Type} (f : A -> option B) (l : list A) : option B :=
  match l with
  | [] => None
  | x :: r => match f x with Some b => Some b | None => first_some f r end
  end.

(** The first candidate whose locale is exactly [tag]. *)
Definition exact_match (vocs : list Vocabulary.t) (tag : string)
  : option Vocabulary.t :=
  array_find (fun v => String.eqb (Vocabulary.getLocale v) tag) vocs.

(** [findVocabulary] as the specification words it: one exact attempt, or
    under 'lookup' the first generalization of the tag that a candidate
    carries. *)
Definition findVocabulary_spec (requestedLocale : string)
  (vocs : list Vocabulary.t) (options : option Options)
  : option Vocabulary.t :=
  if not_lookup options then exact_match vocs requestedLocale
  else first_some (exact_match vocs) (generalizations requestedLocale).

(** The first registered entry of the namespace whose locale is exactly the
    lowercased [tag]. *)
Definition exact_entry (this : VocabularyManager.t) (namespace tag : string)
  : option Vocabulary.t :=
  array_find
    (fun v => (String.eqb (Vocabulary.getNamespace v) namespace &&
               String.eqb (Vocabulary.getLocale v) (toLowerCase tag))%bool)
    (JSObject.values (vocabularies this)).

(** The non-empty term the exact entry of [tag] gives, if any. *)
Definition exact_term (this : VocabularyManager.t)
  (namespace declarationName : string) (propertyName : option string)
  (tag : string) : option string :=
  match exact_entry this namespace tag with
  | Some voc =>
      let term := Vocabulary.getTerm voc declarationName propertyName in
      if truthy term then term else None
  | None => None
  end.

(** [getTerm] as the specification words it: the outer loop over the
    generalizations of the locale, each tried in exact-match mode. *)
Definition getTerm_spec (this : VocabularyManager.t)
  (namespace locale declarationName : string) (propertyName : option string)
  : option string :=
  first_some (exact_term this namespace declarationName propertyName)
             (generalizations locale).

(** [getTerm] run with a bound on the depth of its recursion: the outer
    [None] says that the bound was hit. *)
Fixpoint getTerm_bounded (depth : nat) (this : VocabularyManager.t)
  (namespace locale declarationName : string) (propertyName : option string)
  : option (option string) :=
  match depth with
  | O => None
  | S k =>
      let term := term_at this namespace locale declarationName propertyName in
      if truthy term then Some term
      else if 0 <=? lastIndexOf dash locale
           then getTerm_bounded k this namespace
                  (substring0 (lastIndexOf dash locale) locale)
                  declarationName propertyName
           else Some None
  end.

(** ** Store invariants *)

Definition identifiers (this : VocabularyManager.t) : list string :=
  map Vocabulary.getIdentifier (JSObject.values (vocabularies this)).

(** At most one entry per identifier. *)
Definition unique_identifiers (this : VocabularyManager.t) : Prop :=
  NoDup (identifiers this).

(** Every entry sits under its own identifier. *)
Definition keyed_by_identifier (this : VocabularyManager.t) : Prop :=
  Forall (fun kv => fst kv = Vocabulary.getIdentifier (snd kv))
         (vocabularies this).

(** Every entry has a lowercase locale. *)
Definition lowercase_locales (this : VocabularyManager.t) : Prop :=
  Forall (fun kv => has_upper (Vocabulary.getLocale (snd kv)) = false)
         (vocabularies this).

(** The operations that change the store. *)
Inductive Operation :=
| OpAdd (contents : option string)
| OpRemove (namespace locale : string)
| OpClear.

Definition run (YAML_parse : string -> option Vocabulary.Doc)
  (this : VocabularyManager.t) (op : Operation) : VocabularyManager.t :=
  match op with
  | OpAdd contents => snd (addVocabulary YAML_parse this contents)
  | OpRemove namespace locale => removeVocabulary this namespace locale
  | OpClear => clear this
  end.

(** The states a manager goes through from its construction. *)
Definition state_after (YAML_parse : string -> option Vocabulary.Doc)
  (ops : list Operation) : VocabularyManager.t :=
  fold_left (run YAML_parse) ops constructor.

(** ** Reference definition of validate *)

Arguments getModelFiles {ModelFile} _.
Arguments getModelFile {ModelFile} _ _.
Arguments validate {ModelFile} _ _ _ _.
Arguments validate_entry {ModelFile} _ _ _ _.

Section ValidateSpec.

Context {ModelFile : Type}.
Variable ModelFile_getNamespace : ModelFile -> string.
Variable Vocabulary_validate : Vocabulary.t -> ModelFile -> Vocabulary.Errors.

(** Some registered entry has this namespace. *)
Definition has_vocabulary (this : VocabularyManager.t) (namespace : string)
  : bool :=
  existsb (fun v => String.eqb (Vocabulary.getNamespace v) namespace)
          (JSObject.values (vocabularies this)).

Definition terms_of (reported : option (list string)) : list string :=
  match reported with Some l => l | None => [] end.

(** The record of an entry validated against the model file of its
    namespace. *)
Definition entry_record (voc : Vocabulary.t) (model : ModelFile) : VocResult :=
  {| res_locale := Vocabulary.getLocale voc;
     res_namespace := Vocabulary.getNamespace voc;
     missingTerms :=
       terms_of (Vocabulary.err_missingTerms (Vocabulary_validate voc model));
     additionalTerms :=
       terms_of (Vocabulary.err_additionalTerms
                   (Vocabulary_validate voc model)) |}.

(** The per-entry part of the result: entries without a model file give
    nothing. *)
Definition entry_records (modelManager : ModelManager ModelFile)
  (vocs : list Vocabulary.t) : JSObject.t VocResult :=
  flat_map
    (fun voc =>
       match getModelFile modelManager (Vocabulary.getNamespace voc) with
       | Some model =>
           [(Vocabulary.identifier (Vocabulary.getNamespace voc)
                                   (Vocabulary.getLocale voc),
             entry_record voc model)]
       | None => []
       end)
    vocs.

(** [validate] as the specification words it. *)
Definition validate_spec (this : VocabularyManager.t)
  (modelManager : ModelManager ModelFile) : ValidationResult :=
  {| missingVocabularies :=
       map ModelFile_getNamespace
           (filter (fun m => negb (has_vocabulary this
                                     (ModelFile_getNamespace m)))
                   (getModelFiles modelManager));
     additionalVocabularies :=
       filter (fun v => is_null (getModelFile modelManager
                                              (Vocabulary.getNamespace v)))
              (JSObject.values (vocabularies this));
     result_vocabularies :=
       entry_records modelManager (JSObject.values (vocabularies this)) |}.

End ValidateSpec.

(** ** Sample data *)

Definition lookup_options : option Options :=
  Some {| localeMatcher := Some "lookup" |}.
Definition empty_options : option Options :=
  Some {| localeMatcher := None |}.

Definition vocabulary_of (namespace locale : string) : Vocabulary.t :=
  {| Vocabulary.voc_namespace := namespace;
     Vocabulary.voc_locale := locale;
     Vocabulary.voc_terms := [] |}.

Definition store_slash : VocabularyManager.t :=
  {| vocabularies := [("a/B/c", vocabulary_of "a/B" "c")] |}.

Definition text_en_gb : string :=
  "{namespace: org.acme, locale: en-GB, declarations: [{Vehicle: Car, properties: [{vin: VIN}]}]}".

Definition text_fr : string :=
  "{namespace: org.extra, locale: fr, declarations: [{Owner: Proprietaire}]}".

Definition doc_en_gb : Vocabulary.Doc :=
  {| Vocabulary.doc_namespace := "org.acme";
     Vocabulary.doc_locale := "en-GB";
     Vocabulary.doc_terms :=
       [(("Vehicle", None), "Car"); (("Vehicle", Some "vin"), "VIN")] |}.

Definition doc_fr : Vocabulary.Doc :=
  {| Vocabulary.doc_namespace := "org.extra";
     Vocabulary.doc_locale := "fr";
     Vocabulary.doc_terms := [(("Owner", None), "Proprietaire")] |}.

(** A parser that knows the two sample documents. *)
Definition sample_parse (text : string) : option Vocabulary.Doc :=
  if String.eqb text text_en_gb then Some doc_en_gb
  else if String.eqb text text_fr then Some doc_fr
  else None.

Definition sample_store : VocabularyManager.t :=
  state_after sample_parse [OpAdd (Some text_en_gb); OpAdd (Some text_fr)].

(** Model files stand for their namespace; the provider knows [org.acme]
    and [org.other]. *)
Definition sample_models : ModelManager string :=
  {| getModelFiles := ["org.acme"; "org.other"];
     getModelFile := fun namespace =>
       if String.eqb namespace "org.acme" then Some "org.acme"
       else if String.eqb namespace "org.other" then Some "org.other"
       else None |}.

Definition sample_validate (voc : Vocabulary.t) (model : string)
  : Vocabulary.Errors :=
  {| Vocabulary.err_missingTerms := Some ["Vehicle.model"];
     Vocabulary.err_additionalTerms := None |}.

(** ** Unfolding the two recursions *)

Section Unfolding.

Lemma findVocabulary_unfold locale vocs options :
  findVocabulary locale vocs options =
  match exact_match vocs locale with
  | Some voc => Some voc
  | None =>
      if not_lookup options then None
      else if lastIndexOf dash locale =? -1 then None
      else findVocabulary (substring0 (lastIndexOf dash locale) locale)
                          vocs options
  end.
Proof.
  unfold exact_match.
  funelim (findVocabulary locale vocs options);
    try rewrite Heq0; try rewrite Heq; try rewrite e; try rewrite Hpos;
    reflexivity.
Qed.

Lemma getTerm_unfold this namespace locale declarationName propertyName :
  getTerm this namespace locale declarationName propertyName =
  let term := term_at this namespace locale declarationName propertyName in
  if truthy term then term
  else if 0 <=? lastIndexOf dash locale
       then getTerm this namespace
              (substring0 (lastIndexOf dash locale) locale)
              declarationName propertyName
       else None.
Proof.
  cbv zeta.
  funelim (getTerm this namespace locale declarationName propertyName);
    try rewrite e0; try rewrite e; try rewrite Hdash; reflexivity.
Qed.

End Unfolding.

(** ** Generalizations of a tag and the cut at the last separator *)

Section Generalizations.

Lemma dash_prefixes_none tag : count dash tag = 0%nat -> dash_prefixes tag = [].
Proof.
  induction tag as [|a r IH]; simpl; [reflexivity|].
  destruct (Ascii.eqb a dash); simpl; [discriminate|].
  intros H. rewrite (IH H). reflexivity.
Qed.

Lemma dash_prefixes_cut tag :
  0 <= lastIndexOf dash tag ->
  dash_prefixes tag =
  (dash_prefixes (substring0 (lastIndexOf dash tag) tag)
     ++ [substring0 (lastIndexOf dash tag) tag])%list.
Proof.
  induction tag as [|a r IH]; simpl; [lia|].
  destruct (0 <=? lastIndexOf dash r) eqn:E.
  - intros _. apply Z.leb_le in E.
    rewrite substring0_cons by assumption. simpl.
    rewrite (IH E) at 1. rewrite map_app, app_assoc. reflexivity.
  - apply Z.leb_gt in E. apply lastIndexOf_none in E.
    rewrite (dash_prefixes_none r E).
    destruct (Ascii.eqb a dash); [|lia].
    intros _. reflexivity.
Qed.

Lemma generalizations_cut tag :
  0 <= lastIndexOf dash tag ->
  generalizations tag =
  tag :: generalizations (substring0 (lastIndexOf dash tag) tag).
Proof.
  intros H. unfold generalizations.
  rewrite (dash_prefixes_cut tag H) at 1.
  rewrite rev_app_distr. reflexivity.
Qed.

Lemma generalizations_last tag :
  lastIndexOf dash tag < 0 -> generalizations tag = [tag].
Proof.
  intros H. apply lastIndexOf_none in H.
  unfold generalizations. rewrite (dash_prefixes_none tag H). reflexivity.
Qed.

Lemma generalizations_length tag :
  List.length (generalizations tag) = subtags tag.
Proof.
  unfold generalizations, subtags, dashes. simpl. f_equal.
  rewrite length_rev.
  induction tag as [|a r IH]; simpl; [reflexivity|].
  rewrite length_app, length_map, IH.
  destruct (Ascii.eqb a dash); reflexivity.
Qed.

(** Induction along the cuts of a tag at its last separator. *)
Lemma tag_induction (P : string -> Prop) :
  (forall tag,
      (0 <= lastIndexOf dash tag ->
       P (substring0 (lastIndexOf dash tag) tag)) ->
      P tag) ->
  forall tag, P tag.
Proof.
  intros step tag.
  remember (dashes tag) as n eqn:Hn.
  revert tag Hn.
  induction n as [n IHn] using (well_founded_induction Wf_nat.lt_wf).
  intros tag Hn. apply step. intros Hdash.
  apply (IHn (dashes (substring0 (lastIndexOf dash tag) tag))); [|reflexivity].
  subst n. apply dashes_truncate. exact Hdash.
Qed.

End Generalizations.

(** ** findVocabulary *)

Lemma findVocabulary_lookup vocs options :
  not_lookup options = false ->
  forall locale,
  findVocabulary locale vocs options =
  first_some (exact_match vocs) (generalizations locale).
Proof.
  intros Hl locale.
  induction locale as [locale IH] using tag_induction.
  rewrite findVocabulary_unfold, Hl, lastIndexOf_tests.
  destruct (0 <=? lastIndexOf dash locale) eqn:E; simpl negb; cbv iota.
  - apply Z.leb_le in E.
    rewrite (generalizations_cut locale E). simpl.
    destruct (exact_match vocs locale); [reflexivity|].
    apply IH. exact E.
  - apply Z.leb_gt in E.
    rewrite (generalizations_last locale E). simpl.
    destruct (exact_match vocs locale); reflexivity.
Qed.

(** C1. [findVocabulary] returns the first candidate whose locale equals
    the current tag; when the matcher is not 'lookup' it makes one exact
    attempt and returns null on a miss; under 'lookup' it cuts the tag at
    its last ['-'] and tries again, and returns null once no ['-'] is left
    and nothing matched. So it is the first match along the progressive
    generalizations of the requested tag; the two examples of the
    specification are included. *)
Theorem findVocabulary_correct :
  (forall requestedLocale vocs options,
      findVocabulary requestedLocale vocs options =
      findVocabulary_spec requestedLocale vocs options) /\
  (forall locale vocs options,
      findVocabulary locale vocs options =
      match array_find (fun v => String.eqb (Vocabulary.getLocale v) locale)
                       vocs with
      | Some voc => Some voc
      | None =>
          if not_lookup options then None
          else if lastIndexOf dash locale =? -1 then None
          else findVocabulary (substring0 (lastIndexOf dash locale) locale)
                              vocs options
      end) /\
  generalizations "en-US-x" = ["en-US-x"; "en-US"; "en"] /\
  findVocabulary "en-US-x" [vocabulary_of "org.acme" "en"] lookup_options =
    Some (vocabulary_of "org.acme" "en") /\
  findVocabulary "en-US" [vocabulary_of "org.acme" "fr"] empty_options = None.
Proof.
  split; [|split; [|split; [|split]]].
  - intros locale vocs options. unfold findVocabulary_spec.
    destruct (not_lookup options) eqn:Hl.
    + rewrite findVocabulary_unfold, Hl.
      destruct (exact_match vocs locale); reflexivity.
    + apply findVocabulary_lookup. exact Hl.
  - intros. apply findVocabulary_unfold.
  - reflexivity.
  - reflexivity.
  - reflexivity.
Qed.

(** ** getTerm *)

Section GetTerm.

Lemma find_filter {A : Type} (p q : A -> bool) (l : list A) :
  find p (filter q l) = find (fun x => (q x && p x)%bool) l.
Proof.
  induction l as [|x r IH]; simpl; [reflexivity|].
  destruct (q x); simpl; [|exact IH].
  destruct (p x); [reflexivity|exact IH].
Qed.

Lemma getVocabulary_exact this namespace locale options :
  not_lookup options = true ->
  getVocabulary this namespace locale options =
  exact_entry this namespace locale.
Proof.
  intros Hl. unfold getVocabulary, exact_entry.
  rewrite findVocabulary_unfold, Hl.
  unfold exact_match, array_find, getVocabulariesForNamespace.
  rewrite find_filter.
  match goal with |- match ?f with _ => _ end = _ => destruct f end;
    reflexivity.
Qed.

Lemma truthy_Some term : truthy term = true -> exists s, term = Some s.
Proof. destruct term as [s|]; [eauto|discriminate]. Qed.

Lemma exact_term_at this namespace locale declarationName propertyName :
  exact_term this namespace declarationName propertyName locale =
  let term := term_at this namespace locale declarationName propertyName in
  if truthy term then term else None.
Proof.
  unfold exact_term, term_at.
  rewrite getVocabulary_exact by reflexivity.
  destruct (exact_entry this namespace locale); reflexivity.
Qed.

Lemma getTerm_bounded_enough this namespace declarationName propertyName :
  forall locale depth,
    (subtags locale <= depth)%nat ->
    getTerm_bounded depth this namespace locale declarationName propertyName =
    Some (getTerm this namespace locale declarationName propertyName).
Proof.
  intros locale.
  induction locale as [locale IH] using tag_induction.
  intros [|k] Hk; [unfold subtags in Hk; lia|].
  rewrite getTerm_unfold. simpl.
  destruct (truthy _); [reflexivity|].
  destruct (0 <=? lastIndexOf dash locale) eqn:E; [|reflexivity].
  apply Z.leb_le in E. apply (IH E).
  pose proof (count_truncate dash locale E).
  unfold subtags, dashes in *. lia.
Qed.

Lemma getTerm_refines this namespace declarationName propertyName :
  forall locale,
    getTerm this namespace locale declarationName propertyName =
    getTerm_spec this namespace locale declarationName propertyName.
Proof.
  intros locale. unfold getTerm_spec.
  induction locale as [locale IH] using tag_induction.
  rewrite getTerm_unfold. cbv zeta.
  destruct (0 <=? lastIndexOf dash locale) eqn:E.
  - apply Z.leb_le in E.
    rewrite (generalizations_cut locale E). simpl.
    rewrite exact_term_at. cbv zeta.
    destruct (truthy _) eqn:T.
    + destruct (truthy_Some _ T) as [s ->]. reflexivity.
    + apply IH. exact E.
  - apply Z.leb_gt in E.
    rewrite (generalizations_last locale E). simpl.
    rewrite exact_term_at. cbv zeta.
    destruct (truthy _) eqn:T; [|reflexivity].
    destruct (truthy_Some _ T) as [s ->]. reflexivity.
Qed.

(** Without an entry of the namespace at any generalization of the locale,
    the result is null. *)
Lemma getTerm_no_vocabulary :
  forall this namespace locale declarationName propertyName,
    (forall tag, In tag (generalizations locale) ->
                 exact_entry this namespace tag = None) ->
    getTerm this namespace locale declarationName propertyName = None.
Proof.
  intros this namespace locale declarationName propertyName Hnone.
  rewrite getTerm_refines. unfold getTerm_spec.
  induction (generalizations locale) as [|tag r IH]; simpl; [reflexivity|].
  unfold exact_term at 1. rewrite (Hnone tag (or_introl eq_refl)).
  apply IH. intros tag' Hin. apply Hnone. right. exact Hin.
Qed.

End GetTerm.

(** C2. [getTerm] runs its own loop over the generalizations of the locale,
    independent of the 'lookup' option: each step asks [getVocabulary]
    without options, which is the exact-match mode, and then the entry for
    the term; without an entry at that exact locale, or without the term in
    it, the locale is cut at its last ['-'] and the call recurs; with no
    ['-'] left the result is null. The function is total: no call raises. *)
Theorem getTerm_correct :
  forall this namespace locale declarationName propertyName,
    getTerm this namespace locale declarationName propertyName =
    getTerm_spec this namespace locale declarationName propertyName /\
    getVocabulary this namespace locale None =
    exact_entry this namespace locale /\
    getTerm this namespace locale declarationName propertyName =
    (let term :=
       match getVocabulary this namespace locale None with
       | Some voc => Vocabulary.getTerm voc declarationName propertyName
       | None => None
       end in
     if truthy term then term
     else if 0 <=? lastIndexOf dash locale
          then getTerm this namespace
                 (substring0 (lastIndexOf dash locale) locale)
                 declarationName propertyName
          else None).
Proof.
  intros this namespace locale declarationName propertyName.
  split; [|split].
  - apply getTerm_refines.
  - apply getVocabulary_exact. reflexivity.
  - apply getTerm_unfold.
Qed.

(** C7. [getTerm] terminates on every input: a recursive call is made on a
    locale with strictly fewer ['-'] separators, so a recursion depth equal
    to the number of subtags of the locale is enough, whatever the store,
    and the call returns a term or null. *)
Theorem getTerm_terminates :
  forall this namespace locale declarationName propertyName,
    (0 <= lastIndexOf dash locale ->
     (dashes (substring0 (lastIndexOf dash locale) locale) < dashes locale)%nat)
    /\
    (forall depth,
        (subtags locale <= depth)%nat ->
        getTerm_bounded depth this namespace locale declarationName
                        propertyName =
        Some (getTerm this namespace locale declarationName propertyName))
    /\
    getTerm_bounded (subtags locale) this namespace locale declarationName
                    propertyName =
    Some (getTerm this namespace locale declarationName propertyName)
    /\
    subtags locale = List.length (generalizations locale).
Proof.
  intros this namespace locale declarationName propertyName.
  split; [|split; [|split]].
  - apply dashes_truncate.
  - intros depth Hd. apply getTerm_bounded_enough. exact Hd.
  - apply getTerm_bounded_enough. apply Nat.le_refl.
  - symmetry. apply generalizations_length.
Qed.

(** ** Facts on property lists *)

Section ObjectFacts.

Context {V : Type}.
Implicit Types (o : JSObject.t V) (k : string) (v : V).

Lemma get_None_keys k o : JSObject.get k o = None <-> ~ In k (JSObject.keys o).
Proof.
  induction o as [|[k' v'] r IH]; simpl; [tauto|].
  destruct (String.eqb_spec k' k) as [->|Hne].
  - split; [discriminate|]. intros H. exfalso. apply H. left. reflexivity.
  - rewrite IH. tauto.
Qed.

Lemma get_set_eq k v o : JSObject.get k (JSObject.set k v o) = Some v.
Proof.
  induction o as [|[k' v'] r IH]; simpl.
  - rewrite String.eqb_refl. reflexivity.
  - destruct (String.eqb k' k) eqn:E; simpl; rewrite E; [reflexivity|exact IH].
Qed.

Lemma get_set_ne k k' v o :
  k' <> k -> JSObject.get k' (JSObject.set k v o) = JSObject.get k' o.
Proof.
  intros Hne. induction o as [|[k0 v0] r IH]; simpl.
  - destruct (String.eqb_spec k k'); [congruence|reflexivity].
  - destruct (String.eqb_spec k0 k) as [->|H0]; simpl.
    + destruct (String.eqb_spec k k'); [congruence|reflexivity].
    + rewrite IH. reflexivity.
Qed.

Lemma set_fresh k v o :
  ~ In k (JSObject.keys o) -> JSObject.set k v o = (o ++ [(k, v)])%list.
Proof.
  induction o as [|[k' v'] r IH]; simpl; [reflexivity|].
  intros H. destruct (String.eqb_spec k' k) as [->|Hne]; [tauto|].
  rewrite IH by tauto. reflexivity.
Qed.

Lemma In_values_set k v o : In v (JSObject.values (JSObject.set k v o)).
Proof.
  induction o as [|[k' v'] r IH]; simpl; [left; reflexivity|].
  destruct (String.eqb k' k); simpl; [left; reflexivity|right; exact IH].
Qed.

Lemma values_set_inv k v o x :
  In x (JSObject.values (JSObject.set k v o)) ->
  x = v \/ In x (JSObject.values o).
Proof.
  induction o as [|[k' v'] r IH]; simpl; [intuition congruence|].
  destruct (String.eqb k' k); simpl; [intuition congruence|].
  intros [H|H]; [tauto|]. destruct (IH H); tauto.
Qed.

Lemma get_delete_eq k o : JSObject.get k (JSObject.delete k o) = None.
Proof.
  induction o as [|[k' v'] r IH]; simpl; [reflexivity|].
  destruct (String.eqb k' k) eqn:E; simpl; [exact IH|].
  rewrite E. exact IH.
Qed.

Lemma get_delete_ne k k' o :
  k' <> k -> JSObject.get k' (JSObject.delete k o) = JSObject.get k' o.
Proof.
  intros Hne. induction o as [|[k0 v0] r IH]; simpl; [reflexivity|].
  destruct (String.eqb_spec k0 k) as [->|H0]; simpl.
  - destruct (String.eqb_spec k k'); [congruence|exact IH].
  - rewrite IH. reflexivity.
Qed.

Lemma delete_absent k o : ~ In k (JSObject.keys o) -> JSObject.delete k o = o.
Proof.
  induction o as [|[k' v'] r IH]; simpl; [reflexivity|].
  intros H. destruct (String.eqb_spec k' k) as [->|Hne]; [tauto|].
  simpl. rewrite IH by tauto. reflexivity.
Qed.

Lemma delete_delete k o :
  JSObject.delete k (JSObject.delete k o) = JSObject.delete k o.
Proof.
  unfold JSObject.delete.
  induction o as [|[k' v'] r IH]; simpl; [reflexivity|].
  destruct (String.eqb k' k) eqn:E; simpl; [exact IH|].
  rewrite E. simpl. rewrite IH. reflexivity.
Qed.

Lemma delete_incl k o x :
  In x (JSObject.delete k o) -> In x o.
Proof. unfold JSObject.delete. intros H. apply filter_In in H. tauto. Qed.

(** Deleting properties keeps the images of the values distinct. *)
Lemma delete_NoDup {I : Type} (id : V -> I) k o :
  NoDup (map id (JSObject.values o)) ->
  NoDup (map id (JSObject.values (JSObject.delete k o))).
Proof.
  unfold JSObject.delete.
  induction o as [|[k' v'] r IH]; intros Hnd; [exact Hnd|].
  simpl in *. apply NoDup_cons_iff in Hnd as [Hfresh Hrest].
  destruct (String.eqb k' k); simpl; [exact (IH Hrest)|].
  apply NoDup_cons; [|exact (IH Hrest)].
  contradict Hfresh.
  apply in_map_iff in Hfresh as [w [Hw Hin]].
  apply in_map_iff in Hin as [kw [<- Hin]].
  apply filter_In in Hin as [Hin _].
  rewrite <- Hw. apply in_map. apply in_map. exact Hin.
Qed.

End ObjectFacts.

(** ** addVocabulary *)

Section AddVocabularyFacts.

Variable YAML_parse : string -> option Vocabulary.Doc.

Lemma not_specified_iff contents :
  not_specified contents = true <-> contents = None \/ contents = Some "".
Proof.
  destruct contents as [c|]; simpl.
  - destruct (String.eqb_spec c ""); split; intros H.
    + right. congruence.
    + reflexivity.
    + discriminate.
    + destruct H as [H|H]; congruence.
  - split; [left|]; reflexivity.
Qed.

Lemma existing_None_iff this id :
  array_find (fun v => String.eqb (Vocabulary.getIdentifier v) id)
             (JSObject.values (vocabularies this)) = None <->
  ~ In id (identifiers this).
Proof.
  unfold array_find, identifiers.
  induction (JSObject.values (vocabularies this)) as [|v r IH]; simpl.
  - tauto.
  - destruct (String.eqb_spec (Vocabulary.getIdentifier v) id) as [Heq|Hne].
    + split; [discriminate|]. intros H. exfalso. apply H. left. exact Heq.
    + rewrite IH. tauto.
Qed.

(** The four ways a call ends. *)
Lemma addVocabulary_cases this contents :
  (not_specified contents = true /\
   addVocabulary YAML_parse this contents = (Throw InvalidArgument, this)) \/
  (not_specified contents = false /\
   YAML_parse (text_of contents) = None /\
   addVocabulary YAML_parse this contents = (Throw ParseError, this)) \/
  (exists d,
      not_specified contents = false /\
      YAML_parse (text_of contents) = Some d /\
      In (Vocabulary.getIdentifier (Vocabulary.new d)) (identifiers this) /\
      addVocabulary YAML_parse this contents = (Throw DuplicateEntry, this)) \/
  (exists d,
      not_specified contents = false /\
      YAML_parse (text_of contents) = Some d /\
      ~ In (Vocabulary.getIdentifier (Vocabulary.new d)) (identifiers this) /\
      addVocabulary YAML_parse this contents =
      (Normal,
       {| vocabularies :=
            JSObject.set (Vocabulary.getIdentifier (Vocabulary.new d))
                         (Vocabulary.new d) (vocabularies this) |})).
Proof.
  unfold addVocabulary.
  destruct (not_specified contents); [left; split; reflexivity|right].
  destruct (YAML_parse (text_of contents)) as [d|];
    [right|left; repeat split; reflexivity].
  cbv zeta.
  destruct (array_find _ _) eqn:E.
  - left. exists d. repeat split; try reflexivity.
    destruct (In_dec string_dec
                (Vocabulary.getIdentifier (Vocabulary.new d))
                (identifiers this)) as [Hin|Hnin]; [exact Hin|].
    apply existing_None_iff in Hnin. congruence.
  - right. exists d. repeat split; try reflexivity.
    apply existing_None_iff. exact E.
Qed.

Lemma addVocabulary_throw_unchanged this contents e :
  fst (addVocabulary YAML_parse this contents) = Throw e ->
  snd (addVocabulary YAML_parse this contents) = this.
Proof.
  destruct (addVocabulary_cases this contents)
    as [[_ ->]|[[_ [_ ->]]|[[d [_ [_ [_ ->]]]]|[d [_ [_ [_ ->]]]]]]];
    simpl; intros H; try reflexivity; discriminate.
Qed.

Lemma addVocabulary_normal this contents :
  fst (addVocabulary YAML_parse this contents) = Normal ->
  exists d,
    not_specified contents = false /\
    YAML_parse (text_of contents) = Some d /\
    ~ In (Vocabulary.getIdentifier (Vocabulary.new d)) (identifiers this) /\
    snd (addVocabulary YAML_parse this contents) =
    {| vocabularies :=
         JSObject.set (Vocabulary.getIdentifier (Vocabulary.new d))
                      (Vocabulary.new d) (vocabularies this) |}.
Proof.
  destruct (addVocabulary_cases this contents)
    as [[_ ->]|[[_ [_ ->]]|[[d [_ [_ [_ ->]]]]|[d [Hs [Hp [Hn ->]]]]]]];
    simpl; intros H; try discriminate.
  exists d. repeat split; assumption.
Qed.

End AddVocabularyFacts.

(** C3. [addVocabulary] fails with InvalidArgument when the contents are
    empty or absent and with DuplicateEntry when an entry with the
    identifier of the parsed document is registered already; a call that
    fails leaves the store as it was; otherwise the parsed entry is
    registered under its identifier, the other keys being untouched. *)
Theorem addVocabulary_outcomes :
  forall (YAML_parse : string -> option Vocabulary.Doc) this contents,
    (contents = None \/ contents = Some "" ->
     addVocabulary YAML_parse this contents = (Throw InvalidArgument, this)) /\
    (forall d,
        not_specified contents = false ->
        YAML_parse (text_of contents) = Some d ->
        In (Vocabulary.getIdentifier (Vocabulary.new d)) (identifiers this) ->
        addVocabulary YAML_parse this contents =
        (Throw DuplicateEntry, this)) /\
    (forall e,
        fst (addVocabulary YAML_parse this contents) = Throw e ->
        snd (addVocabulary YAML_parse this contents) = this) /\
    (forall d,
        not_specified contents = false ->
        YAML_parse (text_of contents) = Some d ->
        ~ In (Vocabulary.getIdentifier (Vocabulary.new d)) (identifiers this) ->
        let after := snd (addVocabulary YAML_parse this contents) in
        fst (addVocabulary YAML_parse this contents) = Normal /\
        JSObject.get (Vocabulary.getIdentifier (Vocabulary.new d))
                     (vocabularies after) = Some (Vocabulary.new d) /\
        forall k,
          k <> Vocabulary.getIdentifier (Vocabulary.new d) ->
          JSObject.get k (vocabularies after) =
          JSObject.get k (vocabularies this)).
Proof.
  intros YAML_parse this contents.
  split; [|split; [|split]].
  - intros H. apply not_specified_iff in H.
    unfold addVocabulary. rewrite H. reflexivity.
  - intros d Hs Hp Hin.
    destruct (addVocabulary_cases YAML_parse this contents)
      as [[Hs' _]|[[_ [Hp' _]]|[[d' [_ [Hp' [_ H]]]]|[d' [_ [Hp' [Hn _]]]]]]];
      congruence.
  - intros e. apply addVocabulary_throw_unchanged.
  - intros d Hs Hp Hnin.
    destruct (addVocabulary_cases YAML_parse this contents)
      as [[Hs' _]|[[_ [Hp' _]]|[[d' [_ [Hp' [Hin _]]]]|[d' [_ [Hp' [_ H]]]]]]];
      try congruence.
    assert (d' = d) by congruence. subst d'.
    cbv zeta. rewrite H. simpl. split; [reflexivity|]. split.
    + apply get_set_eq.
    + intros k Hk. apply get_set_ne. exact Hk.
Qed.

(** ** The store invariants along the operations *)

Section Invariants.

Variable YAML_parse : string -> option Vocabulary.Doc.

Lemma identifiers_set_inv k voc o x :
  In x (map Vocabulary.getIdentifier (JSObject.values (JSObject.set k voc o))) ->
  x = Vocabulary.getIdentifier voc \/
  In x (map Vocabulary.getIdentifier (JSObject.values o)).
Proof.
  intros H. apply in_map_iff in H as [v [Hv Hin]].
  destruct (values_set_inv _ _ _ _ Hin) as [->|Hin'].
  - left. symmetry. exact Hv.
  - right. apply in_map_iff. exists v. split; assumption.
Qed.

Lemma unique_set k voc o :
  NoDup (map Vocabulary.getIdentifier (JSObject.values o)) ->
  ~ In (Vocabulary.getIdentifier voc)
       (map Vocabulary.getIdentifier (JSObject.values o)) ->
  NoDup (map Vocabulary.getIdentifier (JSObject.values (JSObject.set k voc o))).
Proof.
  induction o as [|[k' v'] r IH]; simpl.
  - intros _ _. constructor; [simpl; tauto|constructor].
  - intros Hnd Hnin. inversion Hnd as [|? ? Hhead Htail]; subst.
    destruct (String.eqb k' k); simpl.
    + constructor; [tauto|exact Htail].
    + constructor; [|apply IH; tauto].
      intros Hin. destruct (identifiers_set_inv _ _ _ _ Hin) as [Heq|Hold].
      * apply Hnin. left. exact Heq.
      * apply Hhead. exact Hold.
Qed.

Lemma unique_delete k this :
  unique_identifiers this ->
  unique_identifiers {| vocabularies := JSObject.delete k (vocabularies this) |}.
Proof.
  unfold unique_identifiers, identifiers. simpl. apply delete_NoDup.
Qed.

Lemma unique_run this op :
  unique_identifiers this -> unique_identifiers (run YAML_parse this op).
Proof.
  intros Hu. destruct op as [contents|namespace locale|]; simpl.
  - destruct (addVocabulary_cases YAML_parse this contents)
      as [[_ ->]|[[_ [_ ->]]|[[d [_ [_ [_ ->]]]]|[d [_ [_ [Hn ->]]]]]]];
      simpl; try exact Hu.
    apply unique_set; assumption.
  - apply unique_delete. exact Hu.
  - constructor.
Qed.

Lemma keyed_run this op :
  keyed_by_identifier this -> keyed_by_identifier (run YAML_parse this op).
Proof.
  intros Hk. destruct op as [contents|namespace locale|]; simpl.
  - destruct (addVocabulary_cases YAML_parse this contents)
      as [[_ ->]|[[_ [_ ->]]|[[d [_ [_ [_ ->]]]]|[d [_ [_ [_ ->]]]]]]];
      simpl; try exact Hk.
    unfold keyed_by_identifier in *. simpl.
    induction (vocabularies this) as [|[k' v'] r IH]; simpl.
    + constructor; [reflexivity|constructor].
    + inversion Hk as [|? ? Hhead Htail]; subst.
      destruct (String.eqb_spec k' (Vocabulary.getIdentifier (Vocabulary.new d)))
        as [->|Hne].
      * constructor; [reflexivity|exact Htail].
      * constructor; [exact Hhead|apply IH; exact Htail].
  - unfold keyed_by_identifier in *. simpl.
    apply Forall_forall. intros kv Hin.
    apply delete_incl in Hin.
    revert kv Hin. apply Forall_forall. exact Hk.
  - constructor.
Qed.

Lemma lowercase_idempotent s : has_upper (toLowerCase s) = false.
Proof.
  induction s as [|a r IH]; simpl; [reflexivity|].
  rewrite IH, orb_false_r.
  unfold lower_char. destruct (is_upper a) eqn:E; [|exact E].
  unfold is_upper in *.
  apply andb_true_iff in E as [E1 E2].
  apply Nat.leb_le in E1. apply Nat.leb_le in E2.
  rewrite nat_ascii_embedding by lia.
  apply andb_false_iff. right. apply Nat.leb_gt. lia.
Qed.

Lemma lowercase_run this op :
  lowercase_locales this -> lowercase_locales (run YAML_parse this op).
Proof.
  intros Hl. destruct op as [contents|namespace locale|]; simpl.
  - destruct (addVocabulary_cases YAML_parse this contents)
      as [[_ ->]|[[_ [_ ->]]|[[d [_ [_ [_ ->]]]]|[d [_ [_ [_ ->]]]]]]];
      simpl; try exact Hl.
    unfold lowercase_locales in *. simpl.
    induction (vocabularies this) as [|[k' v'] r IH]; simpl.
    + constructor; [apply lowercase_idempotent|constructor].
    + inversion Hl as [|? ? Hhead Htail]; subst.
      destruct (String.eqb k' _).
      * constructor; [apply lowercase_idempotent|exact Htail].
      * constructor; [exact Hhead|apply IH; exact Htail].
  - unfold lowercase_locales in *. simpl.
    apply Forall_forall. intros kv Hin.
    apply delete_incl in Hin.
    revert kv Hin. apply Forall_forall. exact Hl.
  - constructor.
Qed.

(** What holds of every state a manager goes through. *)
Lemma state_after_invariants ops :
  unique_identifiers (state_after YAML_parse ops) /\
  keyed_by_identifier (state_after YAML_parse ops) /\
  lowercase_locales (state_after YAML_parse ops).
Proof.
  unfold state_after.
  assert (H0 : unique_identifiers constructor /\
               keyed_by_identifier constructor /\
               lowercase_locales constructor)
    by (repeat split; constructor).
  revert H0. generalize constructor as this.
  induction ops as [|op r IH]; intros this H0; simpl; [exact H0|].
  apply IH. destruct H0 as [Hu [Hk Hl]].
  repeat split;
    [apply unique_run|apply keyed_run|apply lowercase_run]; assumption.
Qed.

Lemma keyed_keys this :
  keyed_by_identifier this ->
  JSObject.keys (vocabularies this) = identifiers this.
Proof.
  unfold keyed_by_identifier, identifiers, JSObject.keys, JSObject.values.
  rewrite map_map.
  induction (vocabularies this) as [|kv r IH]; simpl; [reflexivity|].
  intros H. inversion H; subst. f_equal; auto.
Qed.

End Invariants.

(** C5. At most one entry per identifier is an invariant of the store: it
    holds of a new manager and every operation (addVocabulary, whether it
    succeeds or throws, removeVocabulary, clear) keeps it, so it holds after
    every sequence of operations. In particular, a call of addVocabulary
    that succeeds found no entry with the identifier of the new one, leaves
    exactly one entry with it, and in a store reached by the operations it
    keeps all the previous entries in place and puts the new one last. *)
Theorem unique_identifiers_invariant :
  forall (YAML_parse : string -> option Vocabulary.Doc),
    unique_identifiers constructor /\
    (forall this op,
        unique_identifiers this ->
        unique_identifiers (run YAML_parse this op)) /\
    (forall ops, unique_identifiers (state_after YAML_parse ops)) /\
    (forall this contents,
        unique_identifiers this ->
        fst (addVocabulary YAML_parse this contents) = Normal ->
        exists d,
          YAML_parse (text_of contents) = Some d /\
          ~ In (Vocabulary.getIdentifier (Vocabulary.new d))
               (identifiers this) /\
          count_occ string_dec
            (identifiers (snd (addVocabulary YAML_parse this contents)))
            (Vocabulary.getIdentifier (Vocabulary.new d)) = 1%nat) /\
    (forall ops contents,
        fst (addVocabulary YAML_parse (state_after YAML_parse ops) contents)
        = Normal ->
        exists d,
          YAML_parse (text_of contents) = Some d /\
          JSObject.values
            (vocabularies
               (snd (addVocabulary YAML_parse (state_after YAML_parse ops)
                                   contents))) =
          (JSObject.values (vocabularies (state_after YAML_parse ops))
             ++ [Vocabulary.new d])%list).
Proof.
  intros YAML_parse.
  split; [constructor|].
  split; [intros this op; apply unique_run|].
  split; [intros ops; apply state_after_invariants|].
  split.
  - intros this contents Hu Hn.
    destruct (addVocabulary_normal YAML_parse this contents Hn)
      as [d [_ [Hp [Hnin Hafter]]]].
    exists d. split; [exact Hp|]. split; [exact Hnin|].
    pose proof (unique_run YAML_parse this (OpAdd contents) Hu) as Hu'.
    simpl in Hu'.
    apply NoDup_count_occ'; [exact Hu'|].
    rewrite Hafter. unfold identifiers. simpl.
    apply in_map. apply In_values_set.
  - intros ops contents Hn.
    destruct (state_after_invariants YAML_parse ops) as [_ [Hk _]].
    destruct (addVocabulary_normal YAML_parse _ contents Hn)
      as [d [_ [Hp [Hnin Hafter]]]].
    exists d. split; [exact Hp|].
    rewrite Hafter. simpl.
    rewrite set_fresh.
    + unfold JSObject.values. rewrite map_app. reflexivity.
    + rewrite (keyed_keys _ Hk). exact Hnin.
Qed.

(** ** Adding, then getting *)

Lemma find_In_Some {A : Type} (p : A -> bool) (l : list A) (x : A) :
  In x l -> p x = true -> exists y, find p l = Some y.
Proof.
  intros Hin Hp. destruct (find p l) as [y|] eqn:E; [eauto|].
  rewrite (find_none p l E x Hin) in Hp. discriminate.
Qed.


Lemma exact_match_getVocabulary this namespace locale options voc :
  exact_match (getVocabulariesForNamespace this namespace)
              (toLowerCase locale) = Some voc ->
  getVocabulary this namespace locale options = Some voc.
Proof.
  intros H. unfold getVocabulary. cbv zeta.
  rewrite findVocabulary_unfold, H. reflexivity.
Qed.

(** C6. After a call of addVocabulary that succeeds on a document with a
    given namespace and locale, [getVocabulary] for that namespace and
    locale, whatever its options, returns an entry, and the identifier of
    this entry is the namespace, a ['/'], and the locale in lowercase. *)
Theorem addVocabulary_getVocabulary :
  forall (YAML_parse : string -> option Vocabulary.Doc) this contents d options,
    fst (addVocabulary YAML_parse this contents) = Normal ->
    YAML_parse (text_of contents) = Some d ->
    exists voc,
      getVocabulary (snd (addVocabulary YAML_parse this contents))
                    (Vocabulary.doc_namespace d) (Vocabulary.doc_locale d)
                    options = Some voc /\
      Vocabulary.getIdentifier voc =
      Vocabulary.doc_namespace d ++ "/"
        ++ toLowerCase (Vocabulary.doc_locale d).
Proof.
  intros YAML_parse this contents d options Hn Hp.
  destruct (addVocabulary_normal YAML_parse this contents Hn)
    as [d' [_ [Hp' [_ Hafter]]]].
  assert (d' = d) by congruence. subst d'.
  set (after := snd (addVocabulary YAML_parse this contents)) in *.
  assert (Hin : In (Vocabulary.new d)
                   (getVocabulariesForNamespace after
                      (Vocabulary.doc_namespace d))).
  { unfold getVocabulariesForNamespace. apply filter_In. split.
    - rewrite Hafter. simpl. apply In_values_set.
    - apply String.eqb_refl. }
  destruct (find_In_Some
              (fun v => String.eqb (Vocabulary.getLocale v)
                                   (toLowerCase (Vocabulary.doc_locale d)))
              _ _ Hin (String.eqb_refl _)) as [voc Hfind].
  exists voc. split.
  - apply exact_match_getVocabulary. exact Hfind.
  - apply find_some in Hfind as [Hvoc Hloc].
    apply String.eqb_eq in Hloc.
    unfold getVocabulariesForNamespace in Hvoc.
    apply filter_In in Hvoc as [_ Hns]. apply String.eqb_eq in Hns.
    unfold Vocabulary.getIdentifier, Vocabulary.identifier.
    rewrite Hns, Hloc. reflexivity.
Qed.

(** ** clear and removeVocabulary *)

(** C8. [clear] empties the store: afterwards the queries by namespace and
    by locale return the empty sequence for every argument, and clearing
    twice is clearing once. *)
Theorem clear_empties :
  forall this namespace locale,
    vocabularies (clear this) = JSObject.empty /\
    getVocabulariesForNamespace (clear this) namespace = [] /\
    getVocabulariesForLocale (clear this) locale = [] /\
    clear (clear this) = clear this.
Proof.
  intros this namespace locale. repeat split; reflexivity.
Qed.

Lemma manager_eta this : {| vocabularies := vocabularies this |} = this.
Proof. destruct this. reflexivity. Qed.

Lemma removeVocabulary_absent this namespace locale :
  ~ In (namespace ++ "/" ++ locale) (JSObject.keys (vocabularies this)) ->
  removeVocabulary this namespace locale = this.
Proof.
  intros H. unfold removeVocabulary.
  rewrite (delete_absent _ _ H). apply manager_eta.
Qed.

(** C9. [removeVocabulary] deletes the entry kept under namespace/locale,
    if there is one, and nothing else; removing twice is removing once,
    and removing what is not there leaves the store as it is. The
    operation is total: it never fails. *)
Theorem removeVocabulary_idempotent :
  forall this namespace locale,
    let key := namespace ++ "/" ++ locale in
    let after := removeVocabulary this namespace locale in
    removeVocabulary after namespace locale = after /\
    JSObject.get key (vocabularies after) = None /\
    (forall k, k <> key ->
               JSObject.get k (vocabularies after) =
               JSObject.get k (vocabularies this)) /\
    (JSObject.get key (vocabularies this) = None -> after = this).
Proof.
  intros this namespace locale key after. subst key after.
  unfold removeVocabulary at 1 2. simpl.
  split; [|split; [|split]].
  - unfold removeVocabulary. simpl. rewrite delete_delete. reflexivity.
  - apply get_delete_eq.
  - intros k Hk. apply get_delete_ne. exact Hk.
  - intros H. apply removeVocabulary_absent. apply get_None_keys. exact H.
Qed.

(** ** removeVocabulary and the case of the locale *)

Section LocaleCase.

Lemma has_upper_app s1 s2 :
  has_upper (s1 ++ s2) = (has_upper s1 || has_upper s2)%bool.
Proof.
  induction s1 as [|a r IH]; simpl; [reflexivity|].
  rewrite IH, orb_assoc. reflexivity.
Qed.

Lemma contains_app c s1 s2 :
  contains c (s1 ++ s2) = (contains c s1 || contains c s2)%bool.
Proof.
  induction s1 as [|a r IH]; simpl; [reflexivity|].
  rewrite IH, orb_assoc. reflexivity.
Qed.

(** Two identifiers that are the same string: a ['/']-free locale on one
    side is the end of the locale on the other side. *)
Lemma identifier_clash ns loc ns' loc' :
  Vocabulary.identifier ns loc = Vocabulary.identifier ns' loc' ->
  contains slash loc = false ->
  has_upper loc = true ->
  has_upper loc' = true.
Proof.
  unfold Vocabulary.identifier.
  revert ns'. induction ns as [|a r IH]; intros [|a' r'] Heq Hslash Hup;
    simpl in Heq.
  - congruence.
  - injection Heq as _ Heq. subst loc.
    rewrite contains_app in Hslash. simpl in Hslash.
    rewrite orb_true_r in Hslash. discriminate.
  - injection Heq as _ Heq. subst loc'.
    rewrite has_upper_app. simpl. rewrite Hup, !orb_true_r. reflexivity.
  - injection Heq as _ Heq. apply (IH r' Heq Hslash Hup).
Qed.

Lemma uppercase_key_absent this namespace locale :
  keyed_by_identifier this ->
  lowercase_locales this ->
  has_upper locale = true ->
  contains slash locale = false ->
  ~ In (namespace ++ "/" ++ locale) (JSObject.keys (vocabularies this)).
Proof.
  intros Hk Hl Hup Hslash Hin.
  apply in_map_iff in Hin as [[k v] [Hkey Hin]].
  unfold keyed_by_identifier, lowercase_locales in *.
  rewrite Forall_forall in Hk, Hl.
  specialize (Hk _ Hin). specialize (Hl _ Hin). cbn [fst snd] in *.
  assert (Hclash : has_upper (Vocabulary.getLocale v) = true).
  { apply (identifier_clash namespace locale (Vocabulary.getNamespace v));
      try assumption.
    transitivity k; [symmetry; exact Hkey|exact Hk]. }
  congruence.
Qed.

End LocaleCase.

(** C10, as stated, fails: a store keyed by identifiers with lowercase
    locales loses its entry of namespace [a/B] and locale [c] when
    [removeVocabulary] is called with namespace [a] and locale [B/c], a
    locale with an uppercase letter. *)
Lemma removeVocabulary_uppercase_counterexample :
  ~ (forall this namespace locale,
        keyed_by_identifier this ->
        lowercase_locales this ->
        has_upper locale = true ->
        removeVocabulary this namespace locale = this).
Proof.
  intros H.
  specialize (H store_slash "a" "B/c").
  assert (Hrem : removeVocabulary store_slash "a" "B/c"
                 = {| vocabularies := [] |}) by reflexivity.
  rewrite Hrem in H.
  assert (Hne : {| vocabularies := [] |} <> store_slash) by discriminate.
  apply Hne. apply H.
  - repeat constructor.
  - repeat constructor.
  - reflexivity.
Qed.

(** C10, amended. [removeVocabulary] builds its key from the namespace and
    the locale as given, without lowercasing the locale, whereas
    [getVocabulary] and [getVocabulariesForLocale] lowercase it. Hence in
    every store whose entries are keyed by their identifiers and have
    lowercase locales, [removeVocabulary] with a locale that has an
    uppercase letter and no ['/'] leaves the store unchanged, so that
    [getVocabulary] and [getVocabulariesForLocale] with the same arguments
    still return what they returned. *)
Theorem removeVocabulary_uppercase_locale :
  forall this namespace locale,
    keyed_by_identifier this ->
    lowercase_locales this ->
    has_upper locale = true ->
    contains slash locale = false ->
    removeVocabulary this namespace locale = this /\
    (forall options,
        getVocabulary (removeVocabulary this namespace locale)
                      namespace locale options =
        getVocabulary this namespace locale options) /\
    getVocabulariesForLocale (removeVocabulary this namespace locale) locale =
    getVocabulariesForLocale this locale.
Proof.
  intros this namespace locale Hk Hl Hup Hslash.
  assert (H : removeVocabulary this namespace locale = this).
  { apply removeVocabulary_absent.
    apply uppercase_key_absent; assumption. }
  rewrite H. repeat split.
Qed.

(** ** validate *)

Section ValidateFacts.

Context {ModelFile : Type}.
Variable ModelFile_getNamespace : ModelFile -> string.
Variable Vocabulary_validate : Vocabulary.t -> ModelFile -> Vocabulary.Errors.

Lemma length_filter_zero {A : Type} (p : A -> bool) (l : list A) :
  Nat.eqb (List.length (filter p l)) 0 = negb (existsb p l).
Proof.
  induction l as [|x r IH]; simpl; [reflexivity|].
  destruct (p x); simpl; [reflexivity|exact IH].
Qed.

Lemma filter_not_null_map {A B : Type} (c : A -> bool) (f : A -> B) l :
  filter_not_null (map (fun m => if c m then Some (f m) else None) l) =
  map f (filter c l).
Proof.
  induction l as [|x r IH]; simpl; [reflexivity|].
  destruct (c x); simpl; rewrite IH; reflexivity.
Qed.

Lemma validate_entry_eq modelManager acc voc :
  validate_entry Vocabulary_validate modelManager acc voc =
  match getModelFile modelManager (Vocabulary.getNamespace voc) with
  | Some model =>
      JSObject.set (Vocabulary.getIdentifier voc)
                   (entry_record Vocabulary_validate voc model) acc
  | None => acc
  end.
Proof.
  unfold validate_entry, entry_record, Vocabulary.getIdentifier,
    Vocabulary.identifier.
  destruct (getModelFile modelManager (Vocabulary.getNamespace voc))
    as [model|]; [|reflexivity].
  destruct (Vocabulary_validate voc model) as [[m|] [a|]]; reflexivity.
Qed.

Lemma keys_entry_records modelManager vocs k :
  In k (JSObject.keys (entry_records Vocabulary_validate modelManager vocs)) ->
  In k (map Vocabulary.getIdentifier vocs).
Proof.
  induction vocs as [|v r IH]; simpl; [trivial|].
  unfold JSObject.keys in *. rewrite map_app, in_app_iff.
  intros [H|H]; [left|right; apply IH; exact H].
  destruct (getModelFile modelManager (Vocabulary.getNamespace v));
    simpl in H; [|tauto].
  destruct H as [H|[]]. exact H.
Qed.

(** The [forEach] loop: with pairwise distinct identifiers, every
    assignment creates a property. *)
Lemma fold_validate_entry modelManager vocs :
  forall acc,
    NoDup (JSObject.keys acc ++ map Vocabulary.getIdentifier vocs) ->
    fold_left (validate_entry Vocabulary_validate modelManager) vocs acc =
    (acc ++ entry_records Vocabulary_validate modelManager vocs)%list.
Proof.
  induction vocs as [|v r IH]; intros acc Hnd; simpl.
  - rewrite app_nil_r. reflexivity.
  - rewrite validate_entry_eq.
    destruct (getModelFile modelManager (Vocabulary.getNamespace v))
      as [model|]; simpl.
    + rewrite set_fresh.
      * rewrite IH.
        -- rewrite <- app_assoc. reflexivity.
        -- unfold JSObject.keys. rewrite map_app. simpl.
           rewrite <- app_assoc. exact Hnd.
      * apply NoDup_remove_2 in Hnd. intros Hin. apply Hnd.
        apply in_or_app. left. exact Hin.
    + apply IH. apply NoDup_remove_1 in Hnd. exact Hnd.
Qed.

Lemma validate_refines this modelManager :
  unique_identifiers this ->
  validate ModelFile_getNamespace Vocabulary_validate this modelManager =
  validate_spec ModelFile_getNamespace Vocabulary_validate this modelManager.
Proof.
  intros Hu. unfold validate, validate_spec. f_equal.
  - rewrite filter_not_null_map. f_equal. apply filter_ext.
    intros m. unfold getVocabulariesForNamespace, has_vocabulary.
    apply length_filter_zero.
  - apply (fold_validate_entry modelManager _ JSObject.empty). exact Hu.
Qed.

Lemma get_In {V : Type} (o : JSObject.t V) k v :
  JSObject.wf o -> (JSObject.get k o = Some v <-> In (k, v) o).
Proof.
  unfold JSObject.wf.
  induction o as [|[k' v'] r IH]; simpl; [intros _; split; [discriminate|tauto]|].
  intros Hnd. inversion Hnd as [|? ? Hhead Htail]; subst.
  destruct (String.eqb_spec k' k) as [->|Hne].
  - split.
    + intros H. left. congruence.
    + intros [H|H]; [congruence|].
      exfalso. apply Hhead. apply in_map_iff. exists (k, v). split;
        [reflexivity|exact H].
  - rewrite (IH Htail). split; [tauto|].
    intros [H|H]; [congruence|exact H].
Qed.

Lemma NoDup_incl_keys modelManager vocs :
  NoDup (map Vocabulary.getIdentifier vocs) ->
  NoDup (JSObject.keys (entry_records Vocabulary_validate modelManager vocs)).
Proof.
  induction vocs as [|v r IH]; simpl; [constructor|].
  intros Hnd. inversion Hnd as [|? ? Hhead Htail]; subst.
  destruct (getModelFile modelManager (Vocabulary.getNamespace v)); simpl.
  - constructor; [|apply IH; exact Htail].
    intros Hin. apply Hhead.
    apply (keys_entry_records modelManager). exact Hin.
  - apply IH. exact Htail.
Qed.

Lemma In_entry_records modelManager vocs k rec :
  In (k, rec) (entry_records Vocabulary_validate modelManager vocs) <->
  exists voc model,
    In voc vocs /\
    getModelFile modelManager (Vocabulary.getNamespace voc) = Some model /\
    k = Vocabulary.getNamespace voc ++ "/" ++ Vocabulary.getLocale voc /\
    rec = entry_record Vocabulary_validate voc model.
Proof.
  unfold entry_records. rewrite in_flat_map. split.
  - intros [voc [Hin H]].
    destruct (getModelFile modelManager (Vocabulary.getNamespace voc))
      as [model|] eqn:E; simpl in H; [|tauto].
    destruct H as [H|[]]. injection H as <- <-.
    exists voc, model. repeat split; assumption.
  - intros [voc [model [Hin [Hm [-> ->]]]]].
    exists voc. split; [exact Hin|]. rewrite Hm. left. reflexivity.
Qed.

End ValidateFacts.

(** C4. [validate] is total and its result is the one the specification
    describes: the missing vocabularies are the namespaces of the model
    files for which no entry is registered, the additional vocabularies are
    the registered entries whose namespace has no model file, and, in a
    store with at most one entry per identifier, the per-entry map has
    under namespace/locale the record (locale, namespace, missing terms,
    additional terms) of every registered entry whose namespace has a model
    file, and nothing for the other entries. *)
Theorem validate_correct :
  forall (ModelFile : Type) (ModelFile_getNamespace : ModelFile -> string)
         (Vocabulary_validate : Vocabulary.t -> ModelFile -> Vocabulary.Errors)
         (this : VocabularyManager.t) (modelManager : ModelManager ModelFile),
    let result :=
      validate ModelFile_getNamespace Vocabulary_validate this modelManager in
    let expected :=
      validate_spec ModelFile_getNamespace Vocabulary_validate this
                    modelManager in
    missingVocabularies result = missingVocabularies expected /\
    additionalVocabularies result = additionalVocabularies expected /\
    (forall namespace,
        In namespace (missingVocabularies result) <->
        (exists m, In m (getModelFiles modelManager) /\
                   ModelFile_getNamespace m = namespace) /\
        getVocabulariesForNamespace this namespace = []) /\
    (forall voc,
        In voc (additionalVocabularies result) <->
        In voc (JSObject.values (vocabularies this)) /\
        getModelFile modelManager (Vocabulary.getNamespace voc) = None) /\
    (unique_identifiers this ->
     result = expected /\
     forall k rec,
       JSObject.get k (result_vocabularies result) = Some rec <->
       exists voc model,
         In voc (JSObject.values (vocabularies this)) /\
         getModelFile modelManager (Vocabulary.getNamespace voc)
         = Some model /\
         k = Vocabulary.getNamespace voc ++ "/" ++ Vocabulary.getLocale voc /\
         rec = entry_record Vocabulary_validate voc model).
Proof.
  intros ModelFile getNs Vvalidate this modelManager result expected.
  assert (Hmissing : missingVocabularies result = missingVocabularies expected).
  { subst result expected. unfold validate, validate_spec. simpl.
    rewrite filter_not_null_map. f_equal. apply filter_ext.
    intros m. apply length_filter_zero. }
  assert (Hadditional :
            additionalVocabularies result = additionalVocabularies expected)
    by reflexivity.
  split; [exact Hmissing|]. split; [exact Hadditional|].
  split; [|split].
  - intros namespace. rewrite Hmissing. subst expected. simpl.
    rewrite in_map_iff. split.
    + intros [m [Hns Hin]]. apply filter_In in Hin as [Hin Hnone].
      split; [exists m; split; assumption|].
      subst namespace. unfold getVocabulariesForNamespace.
      unfold has_vocabulary in Hnone.
      rewrite <- length_filter_zero in Hnone. apply Nat.eqb_eq in Hnone.
      apply length_zero_iff_nil. exact Hnone.
    + intros [[m [Hin Hns]] Hnone]. exists m. split; [exact Hns|].
      apply filter_In. split; [exact Hin|].
      unfold has_vocabulary. rewrite <- length_filter_zero.
      subst namespace. unfold getVocabulariesForNamespace in Hnone.
      rewrite Hnone. reflexivity.
  - intros voc. rewrite Hadditional. subst expected. simpl.
    rewrite filter_In.
    destruct (getModelFile modelManager (Vocabulary.getNamespace voc));
      simpl; intuition congruence.
  - intros Hu.
    assert (Heq : result = expected) by (apply validate_refines; exact Hu).
    split; [exact Heq|].
    intros k rec. rewrite Heq. subst expected. simpl.
    rewrite get_In by (apply NoDup_incl_keys; exact Hu).
    apply In_entry_records.
Qed.

(** Every state reached by the operations qualifies. *)
Lemma validate_after_operations :
  forall (ModelFile : Type) (ModelFile_getNamespace : ModelFile -> string)
         (Vocabulary_validate : Vocabulary.t -> ModelFile -> Vocabulary.Errors)
         (YAML_parse : string -> option Vocabulary.Doc)
         (ops : list Operation) (modelManager : ModelManager ModelFile),
    validate ModelFile_getNamespace Vocabulary_validate
             (state_after YAML_parse ops) modelManager =
    validate_spec ModelFile_getNamespace Vocabulary_validate
                  (state_after YAML_parse ops) modelManager.
Proof.
  intros. apply validate_refines. apply state_after_invariants.
Qed.

(** ** The theorems at work on a small store *)

Example lastIndexOf_tag : lastIndexOf dash "en-US-x" = 5.
Proof. reflexivity. Qed.

Example lastIndexOf_missing : lastIndexOf dash "en" = -1.
Proof. reflexivity. Qed.

Example substring0_tag : substring0 5 "en-US-x" = "en-US".
Proof. reflexivity. Qed.

Example toLowerCase_tag : toLowerCase "en-GB" = "en-gb".
Proof. reflexivity. Qed.

Example findVocabulary_first_of_two :
  findVocabulary "en"
    [vocabulary_of "org.acme" "en"; vocabulary_of "org.other" "en"] None
  = Some (vocabulary_of "org.acme" "en").
Proof. reflexivity. Qed.

Example findVocabulary_exact_only :
  findVocabulary "en-US-x" [vocabulary_of "org.acme" "en"] None = None.
Proof. reflexivity. Qed.

Example addVocabulary_twice :
  fst (addVocabulary sample_parse sample_store (Some text_fr))
  = Throw DuplicateEntry.
Proof. reflexivity. Qed.

Example addVocabulary_unparsed :
  addVocabulary sample_parse sample_store (Some "]")
  = (Throw ParseError, sample_store).
Proof. reflexivity. Qed.

Example getTerm_missing :
  getTerm sample_store "org.acme" "fr-FR" "Vehicle" None = None.
Proof. reflexivity. Qed.

Example removeVocabulary_lowercase :
  JSObject.keys
    (vocabularies (removeVocabulary sample_store "org.acme" "en-gb"))
  = ["org.extra/fr"].
Proof. reflexivity. Qed.

Example sample_store_values :
  JSObject.keys (vocabularies sample_store) = ["org.acme/en-gb"; "org.extra/fr"].
Proof. reflexivity. Qed.

Example getTerm_falls_back :
  getTerm sample_store "org.acme" "en-GB-x-private" "Vehicle" (Some "vin")
  = Some "VIN".
Proof. reflexivity. Qed.

Lemma sample_store_unique : unique_identifiers sample_store.
Proof.
  unfold unique_identifiers. simpl.
  repeat constructor; simpl; intuition discriminate.
Defined.

Lemma addVocabulary_outcomes_witness :
  addVocabulary sample_parse sample_store (Some "")
  = (Throw InvalidArgument, sample_store) /\
  addVocabulary sample_parse sample_store (Some text_en_gb)
  = (Throw DuplicateEntry, sample_store) /\
  JSObject.get "org.acme/en-gb"
    (vocabularies (snd (addVocabulary sample_parse constructor
                                      (Some text_en_gb))))
  = Some (Vocabulary.new doc_en_gb).
Proof.
  split; [|split].
  - apply (addVocabulary_outcomes sample_parse sample_store (Some "")).
    right. reflexivity.
  - apply (addVocabulary_outcomes sample_parse sample_store
                                  (Some text_en_gb)) with (d := doc_en_gb).
    + reflexivity.
    + reflexivity.
    + simpl. left. reflexivity.
  - apply (addVocabulary_outcomes sample_parse constructor
                                  (Some text_en_gb)) with (d := doc_en_gb).
    + reflexivity.
    + reflexivity.
    + simpl. intros [].
Defined.

Lemma validate_correct_witness :
  unique_identifiers sample_store /\
  validate (fun m => m) sample_validate sample_store sample_models =
  {| missingVocabularies := ["org.other"];
     additionalVocabularies := [Vocabulary.new doc_fr];
     result_vocabularies :=
       [("org.acme/en-gb",
         {| res_locale := "en-gb"; res_namespace := "org.acme";
            missingTerms := ["Vehicle.model"]; additionalTerms := [] |})] |}.
Proof.
  split; [exact sample_store_unique|].
  destruct (validate_correct string (fun m => m) sample_validate
                             sample_store sample_models)
    as [_ [_ [_ [_ H]]]].
  destruct (H sample_store_unique) as [Heq _].
  rewrite Heq. reflexivity.
Defined.

Lemma unique_identifiers_invariant_witness :
  unique_identifiers sample_store /\
  unique_identifiers
    (run sample_parse sample_store (OpRemove "org.acme" "en-gb")) /\
  exists d,
    sample_parse text_en_gb = Some d /\
    ~ In (Vocabulary.getIdentifier (Vocabulary.new d))
         (identifiers constructor) /\
    count_occ string_dec
      (identifiers (snd (addVocabulary sample_parse constructor
                                       (Some text_en_gb))))
      (Vocabulary.getIdentifier (Vocabulary.new d)) = 1%nat.
Proof.
  destruct (unique_identifiers_invariant sample_parse)
    as [_ [Hrun [_ [Hadd _]]]].
  split; [exact sample_store_unique|]. split.
  - apply Hrun. exact sample_store_unique.
  - apply (Hadd constructor (Some text_en_gb)).
    + constructor.
    + reflexivity.
Defined.

Lemma addVocabulary_getVocabulary_witness :
  exists voc,
    getVocabulary (snd (addVocabulary sample_parse constructor
                                      (Some text_en_gb)))
                  "org.acme" "en-GB" None = Some voc /\
    Vocabulary.getIdentifier voc = "org.acme/en-gb".
Proof.
  apply (addVocabulary_getVocabulary sample_parse constructor
                                     (Some text_en_gb) doc_en_gb None).
  - reflexivity.
  - reflexivity.
Defined.

Lemma getTerm_terminates_witness :
  (dashes "en-GB" < dashes "en-GB-x")%nat /\
  getTerm_bounded 3 sample_store "org.acme" "en-GB-x" "Vehicle" None
  = Some (Some "Car").
Proof.
  destruct (getTerm_terminates sample_store "org.acme" "en-GB-x" "Vehicle"
                               None) as [Hdec [Hdepth _]].
  split.
  - apply Hdec. vm_compute. discriminate.
  - apply (Hdepth 3%nat). vm_compute. lia.
Defined.

Lemma removeVocabulary_idempotent_witness :
  JSObject.get "org.acme/fr" (vocabularies sample_store) = None /\
  removeVocabulary sample_store "org.acme" "fr" = sample_store.
Proof.
  split; [reflexivity|].
  apply (removeVocabulary_idempotent sample_store "org.acme" "fr").
  reflexivity.
Defined.

Lemma removeVocabulary_uppercase_locale_witness :
  getVocabulary sample_store "org.acme" "en-GB" None
  = Some (Vocabulary.new doc_en_gb) /\
  removeVocabulary sample_store "org.acme" "en-GB" = sample_store.
Proof.
  split; [reflexivity|].
  apply (removeVocabulary_uppercase_locale sample_store "org.acme" "en-GB").
  - repeat constructor.
  - repeat constructor.
  - reflexivity.
  - reflexivity.
Defined.

(** * Further properties of the operations *)

(** ** Case of the locale *)

Section LocaleCaseFacts.

Lemma lower_char_dash a : Ascii.eqb (lower_char a) dash = Ascii.eqb a dash.
Proof. destruct a as [[] [] [] [] [] [] [] []]; reflexivity. Qed.

Lemma lastIndexOf_toLowerCase s :
  lastIndexOf dash (toLowerCase s) = lastIndexOf dash s.
Proof.
  induction s as [|a r IH]; simpl; [reflexivity|].
  rewrite IH, lower_char_dash. reflexivity.
Qed.

Lemma substring_toLowerCase n s :
  String.substring 0 n (toLowerCase s) = toLowerCase (String.substring 0 n s).
Proof.
  revert s. induction n as [|n IH]; intros [|a r]; simpl; try reflexivity.
  rewrite IH. reflexivity.
Qed.

Lemma substring0_toLowerCase p s :
  substring0 p (toLowerCase s) = toLowerCase (substring0 p s).
Proof. apply substring_toLowerCase. Qed.

Lemma toLowerCase_fixed s : has_upper s = false -> toLowerCase s = s.
Proof.
  induction s as [|a r IH]; simpl; [reflexivity|].
  intros H. apply orb_false_iff in H as [Ha Hr].
  unfold lower_char. rewrite Ha, (IH Hr). reflexivity.
Qed.

Lemma toLowerCase_idempotent s : toLowerCase (toLowerCase s) = toLowerCase s.
Proof. apply toLowerCase_fixed. apply lowercase_idempotent. Qed.

Lemma getVocabulary_lowercase this namespace locale options :
  getVocabulary this namespace (toLowerCase locale) options =
  getVocabulary this namespace locale options.
Proof. unfold getVocabulary. rewrite toLowerCase_idempotent. reflexivity. Qed.

Lemma getTerm_lowercase this namespace declarationName propertyName :
  forall locale,
    getTerm this namespace (toLowerCase locale) declarationName propertyName =
    getTerm this namespace locale declarationName propertyName.
Proof.
  intros locale.
  induction locale as [locale IH] using tag_induction.
  rewrite (getTerm_unfold this namespace locale).
  rewrite (getTerm_unfold this namespace (toLowerCase locale)).
  cbv zeta. unfold term_at.
  rewrite getVocabulary_lowercase, lastIndexOf_toLowerCase.
  destruct (truthy _); [reflexivity|].
  destruct (0 <=? lastIndexOf dash locale) eqn:E; [|reflexivity].
  rewrite substring0_toLowerCase. apply IH. apply Z.leb_le. exact E.
Qed.

End LocaleCaseFacts.

(** X1. The queries by locale do not see the case of the locale they are
    given: [getVocabulary] (whatever its options),
    [getVocabulariesForLocale] and [getTerm] return for a locale what they
    return for the same locale written in lowercase. *)
Theorem locale_case_insensitive :
  forall this namespace locale options declarationName propertyName,
    getVocabulary this namespace (toLowerCase locale) options =
    getVocabulary this namespace locale options /\
    getVocabulariesForLocale this (toLowerCase locale) =
    getVocabulariesForLocale this locale /\
    getTerm this namespace (toLowerCase locale) declarationName propertyName =
    getTerm this namespace locale declarationName propertyName.
Proof.
  intros this namespace locale options declarationName propertyName.
  split; [apply getVocabulary_lowercase|]. split.
  - unfold getVocabulariesForLocale. rewrite toLowerCase_idempotent.
    reflexivity.
  - apply getTerm_lowercase.
Qed.

(** ** What a lookup returns *)

Section LookupFacts.

Lemma first_some_split {A B : Type} (f : A -> option B) (l : list A) (b : B) :
  first_some f l = Some b ->
  exists pre x post,
    l = (pre ++ x :: post)%list /\ f x = Some b /\
    forall y, In y pre -> f y = None.
Proof.
  induction l as [|a r IH]; simpl; [discriminate|].
  destruct (f a) as [b'|] eqn:E.
  - intros H. exists [], a, r. repeat split; [congruence|intros y []].
  - intros H. destruct (IH H) as [pre [x [post [-> [Hx Hpre]]]]].
    exists (a :: pre), x, post. repeat split; [exact Hx|].
    intros y [<-|Hy]; [exact E|apply Hpre; exact Hy].
Qed.

Lemma first_some_nowhere {A B : Type} (f : A -> option B) (l : list A) :
  first_some f l = None <-> forall x, In x l -> f x = None.
Proof.
  induction l as [|a r IH]; simpl; [split; [intros _ x []|reflexivity]|].
  destruct (f a) as [b|] eqn:E.
  - split; [discriminate|]. intros H. rewrite (H a) in E by (left; reflexivity).
    discriminate.
  - rewrite IH. split.
    + intros H x [<-|Hx]; [exact E|apply H; exact Hx].
    + intros H x Hx. apply H. right. exact Hx.
Qed.

Lemma exact_match_Some vocs tag v :
  exact_match vocs tag = Some v ->
  In v vocs /\ Vocabulary.getLocale v = tag /\
  array_find (fun c => String.eqb (Vocabulary.getLocale c)
                                  (Vocabulary.getLocale v)) vocs = Some v.
Proof.
  unfold exact_match, array_find. intros H.
  destruct (find_some _ _ H) as [Hin Heq]. apply String.eqb_eq in Heq.
  rewrite Heq. repeat split; assumption.
Qed.

Lemma exact_match_None vocs tag :
  exact_match vocs tag = None <->
  forall c, In c vocs -> Vocabulary.getLocale c <> tag.
Proof.
  unfold exact_match, array_find.
  induction vocs as [|v r IH]; simpl; [split; [intros _ c []|reflexivity]|].
  destruct (String.eqb_spec (Vocabulary.getLocale v) tag) as [Heq|Hne].
  - split; [discriminate|]. intros H. exfalso.
    apply (H v); [left; reflexivity|exact Heq].
  - rewrite IH. split.
    + intros H c [<-|Hc]; [exact Hne|apply H; exact Hc].
    + intros H c Hc. apply H. right. exact Hc.
Qed.

Lemma dash_prefixes_prefix tag s :
  In tag (dash_prefixes s) -> exists rest, s = tag ++ rest.
Proof.
  revert tag. induction s as [|a r IH]; simpl; intros tag; [intros []|].
  rewrite in_app_iff, in_map_iff. intros [H|[t [<- Ht]]].
  - destruct (Ascii.eqb a dash); simpl in H; [|tauto].
    destruct H as [<-|[]]. exists (String a r). reflexivity.
  - destruct (IH t Ht) as [rest ->]. exists rest. reflexivity.
Qed.

Lemma generalizations_prefix tag locale :
  In tag (generalizations locale) -> exists rest, locale = tag ++ rest.
Proof.
  unfold generalizations. intros [<-|H].
  - exists "". clear. induction locale as [|a r IH]; simpl; [reflexivity|].
    rewrite <- IH. reflexivity.
  - apply dash_prefixes_prefix. apply in_rev. exact H.
Qed.

Lemma generalizations_head locale :
  exists rest, generalizations locale = locale :: rest.
Proof. unfold generalizations. eauto. Qed.

Lemma getVocabulary_no_options this namespace locale options :
  not_lookup options = true ->
  getVocabulary this namespace locale options =
  exact_match (getVocabulariesForNamespace this namespace)
              (toLowerCase locale).
Proof.
  intros Hl. unfold getVocabulary. cbv zeta.
  rewrite findVocabulary_unfold, Hl.
  destruct (exact_match _ _); reflexivity.
Qed.

Lemma exact_entry_Some this namespace tag voc :
  exact_entry this namespace tag = Some voc ->
  In voc (JSObject.values (vocabularies this)) /\
  Vocabulary.getNamespace voc = namespace /\
  Vocabulary.getLocale voc = toLowerCase tag.
Proof.
  unfold exact_entry, array_find. intros H.
  destruct (find_some _ _ H) as [Hin Heq].
  apply andb_true_iff in Heq as [Hns Hloc].
  apply String.eqb_eq in Hns. apply String.eqb_eq in Hloc.
  repeat split; assumption.
Qed.

Lemma truthy_nonempty t : truthy (Some t) = true -> t <> "".
Proof.
  simpl. intros H Heq. subst t. discriminate.
Qed.

Lemma getTerm_follows_lookup this namespace declarationName propertyName
      options voc :
  not_lookup options = false ->
  truthy (Vocabulary.getTerm voc declarationName propertyName) = true ->
  forall locale,
    getVocabulary this namespace locale options = Some voc ->
    getTerm this namespace locale declarationName propertyName =
    Vocabulary.getTerm voc declarationName propertyName.
Proof.
  intros Hl Hterm locale.
  induction locale as [locale IH] using tag_induction.
  intros Hfound. rewrite getTerm_unfold. cbv zeta. unfold term_at.
  rewrite getVocabulary_no_options by reflexivity.
  unfold getVocabulary in Hfound, IH. cbv zeta in Hfound, IH.
  rewrite findVocabulary_unfold in Hfound.
  destruct (exact_match _ (toLowerCase locale)) as [v0|].
  - injection Hfound as ->. rewrite Hterm. reflexivity.
  - rewrite Hl, lastIndexOf_tests, lastIndexOf_toLowerCase,
      substring0_toLowerCase in Hfound.
    simpl truthy. cbv iota.
    destruct (0 <=? lastIndexOf dash locale) eqn:E; simpl in Hfound;
      [|discriminate].
    apply IH; [apply Z.leb_le; exact E|exact Hfound].
Qed.

End LookupFacts.

(** X2. What [findVocabulary] returns is one of the candidates, in fact
    the first candidate with its locale; this locale is the requested tag
    or the requested tag cut before one of its ['-'] (it is the requested
    tag itself when the matcher is not 'lookup'), and no candidate carries
    a more specific generalization of the requested tag: the result is the
    most specific vocabulary. *)
Theorem findVocabulary_most_specific :
  forall requestedLocale vocs options voc,
    findVocabulary requestedLocale vocs options = Some voc ->
    In voc vocs /\
    array_find (fun c => String.eqb (Vocabulary.getLocale c)
                                    (Vocabulary.getLocale voc)) vocs
    = Some voc /\
    (exists rest, requestedLocale = Vocabulary.getLocale voc ++ rest) /\
    (not_lookup options = true -> Vocabulary.getLocale voc = requestedLocale)
    /\
    exists pre post,
      generalizations requestedLocale =
      (pre ++ Vocabulary.getLocale voc :: post)%list /\
      forall tag c, In tag pre -> In c vocs -> Vocabulary.getLocale c <> tag.
Proof.
  intros locale vocs options voc Hfound.
  assert (Hcase :
            exists pre tag post,
              generalizations locale = (pre ++ tag :: post)%list /\
              exact_match vocs tag = Some voc /\
              (forall y, In y pre -> exact_match vocs y = None) /\
              (not_lookup options = true -> tag = locale)).
  { destruct (not_lookup options) eqn:Hl.
    - rewrite findVocabulary_unfold, Hl in Hfound.
      destruct (exact_match vocs locale) as [v0|] eqn:E; [|discriminate].
      destruct (generalizations_head locale) as [rest Hrest].
      exists [], locale, rest. rewrite Hrest.
      repeat split; [congruence|intros y []].
    - rewrite (findVocabulary_lookup vocs options Hl) in Hfound.
      destruct (first_some_split _ _ _ Hfound) as [pre [x [post [Hg [Hx Hpre]]]]].
      exists pre, x, post. repeat split; try assumption. discriminate. }
  destruct Hcase as [pre [tag [post [Hg [Hx [Hpre Hexact]]]]]].
  destruct (exact_match_Some vocs tag voc Hx) as [Hin [Hloc Hfirst]].
  split; [exact Hin|]. split; [exact Hfirst|]. split; [|split].
  - rewrite Hloc. apply generalizations_prefix.
    rewrite Hg. apply in_or_app. right. left. reflexivity.
  - intros Hl. rewrite Hloc. apply Hexact. exact Hl.
  - exists pre, post. rewrite Hloc. split; [exact Hg|].
    intros t c Ht Hc. apply (proj1 (exact_match_None vocs t)); [|exact Hc].
    apply Hpre. exact Ht.
Qed.

Lemma findVocabulary_most_specific_witness :
  findVocabulary "en-US-x"
    [vocabulary_of "org.acme" "fr"; vocabulary_of "org.acme" "en"]
    lookup_options = Some (vocabulary_of "org.acme" "en") /\
  exists rest, "en-US-x" = "en" ++ rest.
Proof.
  split; [reflexivity|].
  apply (findVocabulary_most_specific
           "en-US-x"
           [vocabulary_of "org.acme" "fr"; vocabulary_of "org.acme" "en"]
           lookup_options (vocabulary_of "org.acme" "en")).
  reflexivity.
Defined.

(** X3. [findVocabulary] returns null exactly when no candidate carries a
    tag it tries: the requested tag alone when the matcher is not 'lookup',
    every generalization of the requested tag under 'lookup'. *)
Theorem findVocabulary_null_iff :
  forall requestedLocale vocs options,
    findVocabulary requestedLocale vocs options = None <->
    forall tag c,
      In tag (if not_lookup options then [requestedLocale]
              else generalizations requestedLocale) ->
      In c vocs -> Vocabulary.getLocale c <> tag.
Proof.
  intros locale vocs options.
  destruct (not_lookup options) eqn:Hl.
  - rewrite findVocabulary_unfold, Hl.
    destruct (exact_match vocs locale) as [v0|] eqn:E.
    + split; [discriminate|]. intros H. exfalso.
      destruct (exact_match_Some vocs locale v0 E) as [Hin [Hloc _]].
      apply (H locale v0); [left; reflexivity|exact Hin|exact Hloc].
    + split; [|reflexivity]. intros _ tag c [<-|[]].
      apply exact_match_None. exact E.
  - rewrite (findVocabulary_lookup vocs options Hl), first_some_nowhere.
    split.
    + intros H tag c Ht. apply exact_match_None. apply H. exact Ht.
    + intros H tag Ht. apply exact_match_None. intros c. apply H. exact Ht.
Qed.

Lemma findVocabulary_null_iff_witness :
  findVocabulary "en-US" [vocabulary_of "org.acme" "fr"] lookup_options = None.
Proof.
  apply (findVocabulary_null_iff "en-US" [vocabulary_of "org.acme" "fr"]
                                 lookup_options).
  intros tag c Htag Hc. simpl in Htag, Hc.
  destruct Hc as [<-|[]].
  destruct Htag as [<-|[<-|[]]]; discriminate.
Defined.

(** X4. A term that [getTerm] returns is not the empty string and is the
    term that a registered entry of the requested namespace gives for the
    declaration (and property); the locale of this entry is, in lowercase,
    a generalization of the requested locale, and no more specific
    generalization has an entry with a non-empty term. *)
Theorem getTerm_sound :
  forall this namespace locale declarationName propertyName term,
    getTerm this namespace locale declarationName propertyName = Some term ->
    term <> "" /\
    exists voc pre tag post,
      In voc (JSObject.values (vocabularies this)) /\
      Vocabulary.getNamespace voc = namespace /\
      Vocabulary.getLocale voc = toLowerCase tag /\
      Vocabulary.getTerm voc declarationName propertyName = Some term /\
      generalizations locale = (pre ++ tag :: post)%list /\
      forall tag', In tag' pre ->
                   exact_term this namespace declarationName propertyName tag'
                   = None.
Proof.
  intros this namespace locale declarationName propertyName term Hterm.
  rewrite getTerm_refines in Hterm. unfold getTerm_spec in Hterm.
  destruct (first_some_split _ _ _ Hterm) as [pre [tag [post [Hg [Hx Hpre]]]]].
  unfold exact_term in Hx.
  destruct (exact_entry this namespace tag) as [voc|] eqn:E; [|discriminate].
  cbv zeta in Hx.
  destruct (truthy (Vocabulary.getTerm voc declarationName propertyName))
    eqn:T; [|discriminate].
  rewrite Hx in T.
  destruct (exact_entry_Some this namespace tag voc E) as [Hin [Hns Hloc]].
  split; [apply truthy_nonempty; exact T|].
  exists voc, pre, tag, post. repeat split; assumption.
Qed.

Lemma getTerm_sound_witness :
  getTerm sample_store "org.acme" "en-GB-x" "Vehicle" (Some "vin")
  = Some "VIN" /\ "VIN" <> "".
Proof.
  split; [reflexivity|].
  apply (getTerm_sound sample_store "org.acme" "en-GB-x" "Vehicle"
                       (Some "vin") "VIN").
  reflexivity.
Defined.

(** X5. The two fallbacks agree where both succeed: when [getVocabulary]
    under 'lookup' finds an entry and this entry has a non-empty term for
    the declaration (and property), [getTerm] returns that term. *)
Theorem getTerm_agrees_with_lookup :
  forall this namespace locale declarationName propertyName options voc,
    not_lookup options = false ->
    getVocabulary this namespace locale options = Some voc ->
    truthy (Vocabulary.getTerm voc declarationName propertyName) = true ->
    getTerm this namespace locale declarationName propertyName =
    Vocabulary.getTerm voc declarationName propertyName.
Proof.
  intros this namespace locale declarationName propertyName options voc
         Hl Hfound Hterm.
  apply (getTerm_follows_lookup this namespace declarationName propertyName
                                options voc Hl Hterm locale Hfound).
Qed.

Lemma getTerm_agrees_with_lookup_witness :
  getVocabulary sample_store "org.acme" "en-GB-x" lookup_options
  = Some (Vocabulary.new doc_en_gb) /\
  getTerm sample_store "org.acme" "en-GB-x" "Vehicle" None = Some "Car".
Proof.
  split; [reflexivity|].
  apply (getTerm_agrees_with_lookup sample_store "org.acme" "en-GB-x"
           "Vehicle" None lookup_options (Vocabulary.new doc_en_gb)).
  - reflexivity.
  - reflexivity.
  - reflexivity.
Defined.

(** ** How the operations on the store compose *)

Section StoreFacts.

Variable YAML_parse : string -> option Vocabulary.Doc.

Lemma delete_app {V : Type} k (o1 o2 : JSObject.t V) :
  JSObject.delete k (o1 ++ o2)%list =
  (JSObject.delete k o1 ++ JSObject.delete k o2)%list.
Proof. apply filter_app. Qed.

Lemma delete_commute {V : Type} k1 k2 (o : JSObject.t V) :
  JSObject.delete k1 (JSObject.delete k2 o) =
  JSObject.delete k2 (JSObject.delete k1 o).
Proof.
  unfold JSObject.delete.
  induction o as [|[k v] r IH]; simpl; [reflexivity|].
  destruct (String.eqb k k1) eqn:E1, (String.eqb k k2) eqn:E2; simpl;
    rewrite ?E1, ?E2; simpl; rewrite IH; reflexivity.
Qed.

Lemma array_find_nowhere {A : Type} (p : A -> bool) (l : list A) :
  (forall x, In x l -> p x = false) -> array_find p l = None.
Proof.
  unfold array_find. intros H.
  destruct (find p l) as [x|] eqn:E; [|reflexivity].
  apply find_some in E as [Hin Hp].
  rewrite (H x Hin) in Hp. discriminate.
Qed.

Lemma array_find_app {A : Type} (p : A -> bool) (l l' : list A) x :
  array_find p l = Some x -> array_find p (l ++ l')%list = Some x.
Proof.
  unfold array_find.
  induction l as [|a r IH]; simpl; [discriminate|].
  destruct (p a); [trivial|exact IH].
Qed.

Lemma keyed_In this k v :
  keyed_by_identifier this ->
  In (k, v) (vocabularies this) ->
  k = Vocabulary.getIdentifier v.
Proof.
  unfold keyed_by_identifier. rewrite Forall_forall.
  intros Hk Hin. apply (Hk (k, v) Hin).
Qed.

Lemma addVocabulary_appends this contents :
  keyed_by_identifier this ->
  fst (addVocabulary YAML_parse this contents) = Normal ->
  exists d,
    YAML_parse (text_of contents) = Some d /\
    vocabularies (snd (addVocabulary YAML_parse this contents)) =
    (vocabularies this
       ++ [(Vocabulary.getIdentifier (Vocabulary.new d), Vocabulary.new d)])%list
    /\ ~ In (Vocabulary.getIdentifier (Vocabulary.new d))
            (JSObject.keys (vocabularies this)).
Proof.
  intros Hk Hn.
  destruct (addVocabulary_normal YAML_parse this contents Hn)
    as [d [_ [Hp [Hnin Hafter]]]].
  exists d. split; [exact Hp|].
  rewrite <- (keyed_keys this Hk) in Hnin.
  split; [|exact Hnin].
  rewrite Hafter. simpl. apply set_fresh. exact Hnin.
Qed.

Lemma removed_key_absent this namespace locale :
  ~ In (namespace ++ "/" ++ locale)
       (JSObject.keys (vocabularies (removeVocabulary this namespace locale))).
Proof. apply get_None_keys. apply get_delete_eq. Qed.

(** In a store with one entry per identifier, the entries of a namespace
    have pairwise distinct locales. *)
Lemma namespace_locales_distinct this namespace :
  unique_identifiers this ->
  NoDup (map Vocabulary.getLocale (getVocabulariesForNamespace this namespace)).
Proof.
  unfold unique_identifiers, identifiers, getVocabulariesForNamespace.
  induction (JSObject.values (vocabularies this)) as [|v r IH]; simpl;
    [constructor|].
  intros Hnd. apply NoDup_cons_iff in Hnd as [Hfresh Hrest].
  destruct (String.eqb_spec (Vocabulary.getNamespace v) namespace)
    as [Hns|_]; [|exact (IH Hrest)].
  simpl. apply NoDup_cons; [|exact (IH Hrest)].
  contradict Hfresh.
  apply in_map_iff in Hfresh as [w [Hloc Hw]].
  apply filter_In in Hw as [Hw Hnsw]. apply String.eqb_eq in Hnsw.
  apply in_map_iff. exists w. split; [|exact Hw].
  unfold Vocabulary.getIdentifier. rewrite Hloc, Hnsw, Hns. reflexivity.
Qed.

Lemma distinct_images_inj {A B : Type} (f : A -> B) (l : list A) x y :
  NoDup (map f l) -> In x l -> In y l -> f x = f y -> x = y.
Proof.
  induction l as [|a r IH]; simpl; [intros _ []|].
  intros Hnd Hx Hy Hf. apply NoDup_cons_iff in Hnd as [Hfresh Hrest].
  destruct Hx as [<-|Hx], Hy as [<-|Hy]; auto.
  - exfalso. apply Hfresh. rewrite Hf. apply in_map. exact Hy.
  - exfalso. apply Hfresh. rewrite <- Hf. apply in_map. exact Hx.
Qed.

Lemma exact_lookup_unique this namespace locale voc :
  unique_identifiers this ->
  In voc (JSObject.values (vocabularies this)) ->
  Vocabulary.getNamespace voc = namespace ->
  Vocabulary.getLocale voc = toLowerCase locale ->
  exact_match (getVocabulariesForNamespace this namespace)
              (toLowerCase locale) = Some voc.
Proof.
  intros Hu Hin Hns Hloc.
  assert (Hvoc : In voc (getVocabulariesForNamespace this namespace)).
  { apply filter_In. split; [exact Hin|]. apply String.eqb_eq. exact Hns. }
  destruct (find_In_Some
              (fun v => String.eqb (Vocabulary.getLocale v)
                                   (toLowerCase locale))
              _ voc Hvoc (proj2 (String.eqb_eq _ _) Hloc)) as [w Hw].
  unfold exact_match, array_find. rewrite Hw. f_equal.
  apply find_some in Hw as [Hwin Hwloc]. apply String.eqb_eq in Hwloc.
  apply (distinct_images_inj Vocabulary.getLocale
           (getVocabulariesForNamespace this namespace)); try assumption.
  - apply namespace_locales_distinct. exact Hu.
  - congruence.
Qed.

End StoreFacts.

(** X6. Adding, then removing: in a store whose entries sit under their
    identifiers, a call of addVocabulary that succeeds followed by
    removeVocabulary with the namespace of the document and its locale in
    lowercase gives back the store as it was. *)
Theorem addVocabulary_removeVocabulary :
  forall (YAML_parse : string -> option Vocabulary.Doc) this contents d,
    keyed_by_identifier this ->
    fst (addVocabulary YAML_parse this contents) = Normal ->
    YAML_parse (text_of contents) = Some d ->
    removeVocabulary (snd (addVocabulary YAML_parse this contents))
                     (Vocabulary.doc_namespace d)
                     (toLowerCase (Vocabulary.doc_locale d)) = this.
Proof.
  intros YAML_parse this contents d Hk Hn Hp.
  destruct (addVocabulary_appends YAML_parse this contents Hk Hn)
    as [d' [Hp' [Hafter Hfresh]]].
  assert (d' = d) by congruence. subst d'.
  unfold removeVocabulary. rewrite Hafter, delete_app.
  change (Vocabulary.doc_namespace d ++ "/"
            ++ toLowerCase (Vocabulary.doc_locale d))
    with (Vocabulary.getIdentifier (Vocabulary.new d)).
  rewrite (delete_absent _ _ Hfresh). simpl.
  rewrite String.eqb_refl. simpl. rewrite app_nil_r. apply manager_eta.
Qed.

Lemma addVocabulary_removeVocabulary_witness :
  removeVocabulary
    (snd (addVocabulary sample_parse constructor (Some text_en_gb)))
    "org.acme" "en-gb" = constructor.
Proof.
  apply (addVocabulary_removeVocabulary sample_parse constructor
                                        (Some text_en_gb) doc_en_gb).
  - constructor.
  - reflexivity.
  - reflexivity.
Defined.

(** X7. Removing, then getting: in a store whose entries sit under their
    identifiers, after removeVocabulary with a lowercase locale,
    [getVocabulary] in exact-match mode for the same namespace and locale
    returns null. *)
Theorem removeVocabulary_getVocabulary :
  forall this namespace locale options,
    keyed_by_identifier this ->
    has_upper locale = false ->
    not_lookup options = true ->
    getVocabulary (removeVocabulary this namespace locale)
                  namespace locale options = None.
Proof.
  intros this namespace locale options Hk Hlow Hl.
  rewrite getVocabulary_exact by exact Hl.
  apply array_find_nowhere. intros v Hin.
  apply in_map_iff in Hin as [[k v'] [Hv Hin]]. simpl in Hv. subst v'.
  apply filter_In in Hin as [Hin Hkey]. cbn [fst] in Hkey.
  apply negb_true_iff, String.eqb_neq in Hkey.
  apply (keyed_In this k v Hk) in Hin.
  apply andb_false_iff.
  destruct (String.eqb_spec (Vocabulary.getNamespace v) namespace)
    as [Hns|]; [right|left; reflexivity].
  apply String.eqb_neq. intros Hloc. apply Hkey.
  rewrite (toLowerCase_fixed locale Hlow) in Hloc.
  rewrite Hin. unfold Vocabulary.getIdentifier, Vocabulary.identifier.
  rewrite Hns, Hloc. reflexivity.
Qed.

Lemma removeVocabulary_getVocabulary_witness :
  getVocabulary sample_store "org.acme" "en-gb" None
  = Some (Vocabulary.new doc_en_gb) /\
  getVocabulary (removeVocabulary sample_store "org.acme" "en-gb")
                "org.acme" "en-gb" None = None.
Proof.
  split; [reflexivity|].
  apply (removeVocabulary_getVocabulary sample_store "org.acme" "en-gb" None).
  - repeat constructor.
  - reflexivity.
  - reflexivity.
Defined.

(** X8. Removing, then adding: in a store whose entries sit under their
    identifiers, after removeVocabulary with the namespace of a document and
    its locale in lowercase, addVocabulary of that document succeeds: it
    does not report a duplicate. *)
Theorem removeVocabulary_addVocabulary :
  forall (YAML_parse : string -> option Vocabulary.Doc) this contents d,
    keyed_by_identifier this ->
    not_specified contents = false ->
    YAML_parse (text_of contents) = Some d ->
    fst (addVocabulary YAML_parse
           (removeVocabulary this (Vocabulary.doc_namespace d)
                             (toLowerCase (Vocabulary.doc_locale d)))
           contents) = Normal.
Proof.
  intros YAML_parse this contents d Hk Hs Hp.
  set (removed := removeVocabulary this (Vocabulary.doc_namespace d)
                                   (toLowerCase (Vocabulary.doc_locale d))).
  assert (Hk' : keyed_by_identifier removed).
  { apply (keyed_run YAML_parse this
             (OpRemove (Vocabulary.doc_namespace d)
                       (toLowerCase (Vocabulary.doc_locale d))) Hk). }
  destruct (addVocabulary_cases YAML_parse removed contents)
    as [[Hs' _]|[[_ [Hp' _]]|[[d' [_ [Hp' [Hin _]]]]|[d' [_ [_ [_ ->]]]]]]];
    try congruence; [|reflexivity].
  exfalso. assert (d' = d) by congruence. subst d'.
  rewrite <- (keyed_keys removed Hk') in Hin.
  revert Hin. apply removed_key_absent.
Qed.

Lemma removeVocabulary_addVocabulary_witness :
  fst (addVocabulary sample_parse sample_store (Some text_en_gb))
  = Throw DuplicateEntry /\
  fst (addVocabulary sample_parse
         (removeVocabulary sample_store "org.acme" "en-gb")
         (Some text_en_gb)) = Normal.
Proof.
  split; [reflexivity|].
  apply (removeVocabulary_addVocabulary sample_parse sample_store
                                        (Some text_en_gb) doc_en_gb).
  - repeat constructor.
  - reflexivity.
  - reflexivity.
Defined.

(** X9. Every state a manager goes through is a well-formed object: no
    key occurs twice, every key is the identifier namespace/locale of the
    entry it holds, hence contains a ['/'], and the locale of every entry
    is in lowercase. *)
Theorem reachable_store_wellformed :
  forall (YAML_parse : string -> option Vocabulary.Doc) ops,
    JSObject.wf (vocabularies (state_after YAML_parse ops)) /\
    forall k voc,
      In (k, voc) (vocabularies (state_after YAML_parse ops)) ->
      k = Vocabulary.getNamespace voc ++ "/" ++ Vocabulary.getLocale voc /\
      contains slash k = true /\
      has_upper (Vocabulary.getLocale voc) = false.
Proof.
  intros YAML_parse ops.
  destruct (state_after_invariants YAML_parse ops) as [Hu [Hk Hl]].
  split.
  - unfold JSObject.wf. rewrite (keyed_keys _ Hk). exact Hu.
  - intros k voc Hin.
    pose proof (keyed_In _ k voc Hk Hin) as Hkey.
    unfold lowercase_locales in Hl. rewrite Forall_forall in Hl.
    split; [exact Hkey|]. split; [|exact (Hl _ Hin)].
    rewrite Hkey. unfold Vocabulary.getIdentifier, Vocabulary.identifier.
    rewrite contains_app. simpl. apply orb_true_r.
Qed.

Lemma reachable_store_wellformed_witness :
  In ("org.extra/fr", Vocabulary.new doc_fr) (vocabularies sample_store) /\
  contains slash "org.extra/fr" = true.
Proof.
  split; [right; left; reflexivity|].
  destruct (reachable_store_wellformed
              sample_parse [OpAdd (Some text_en_gb); OpAdd (Some text_fr)])
    as [_ Hentries].
  apply (Hentries "org.extra/fr" (Vocabulary.new doc_fr)).
  right. left. reflexivity.
Defined.

(** X10. In a store with at most one entry per identifier, the entries of
    a namespace have pairwise distinct locales, so that [getVocabulary] in
    exact-match mode does not depend on the order of the entries: it
    returns an entry exactly when this entry is registered, has the
    namespace, and has the lowercased locale. *)
Theorem getVocabulary_exact_iff :
  forall this namespace locale options voc,
    unique_identifiers this ->
    not_lookup options = true ->
    NoDup (map Vocabulary.getLocale
               (getVocabulariesForNamespace this namespace)) /\
    (getVocabulary this namespace locale options = Some voc <->
     In voc (JSObject.values (vocabularies this)) /\
     Vocabulary.getNamespace voc = namespace /\
     Vocabulary.getLocale voc = toLowerCase locale).
Proof.
  intros this namespace locale options voc Hu Hl.
  split; [apply namespace_locales_distinct; exact Hu|].
  rewrite (getVocabulary_no_options this namespace locale options Hl).
  split.
  - intros H. apply exact_match_Some in H as [Hin [Hloc _]].
    apply filter_In in Hin as [Hin Hns]. apply String.eqb_eq in Hns.
    repeat split; assumption.
  - intros [Hin [Hns Hloc]]. apply exact_lookup_unique; assumption.
Qed.

Lemma getVocabulary_exact_iff_witness :
  NoDup (map Vocabulary.getLocale
             (getVocabulariesForNamespace sample_store "org.acme")) /\
  (getVocabulary sample_store "org.acme" "en-GB" None
   = Some (Vocabulary.new doc_en_gb) <->
   In (Vocabulary.new doc_en_gb) (JSObject.values (vocabularies sample_store))
   /\ Vocabulary.getNamespace (Vocabulary.new doc_en_gb) = "org.acme"
   /\ Vocabulary.getLocale (Vocabulary.new doc_en_gb) = toLowerCase "en-GB").
Proof.
  apply (getVocabulary_exact_iff sample_store "org.acme" "en-GB" None
                                 (Vocabulary.new doc_en_gb)).
  - exact sample_store_unique.
  - reflexivity.
Defined.

(** X11. Adding, then reading: in a store with at most one entry per
    identifier, after a call of addVocabulary that succeeds on a document,
    [getVocabulary] for the namespace and locale of the document returns
    the entry made of this very document, whatever the options, and
    [getTerm] returns every non-empty term of the document. *)
Theorem addVocabulary_then_read :
  forall (YAML_parse : string -> option Vocabulary.Doc) this contents d
         options declarationName propertyName,
    unique_identifiers this ->
    fst (addVocabulary YAML_parse this contents) = Normal ->
    YAML_parse (text_of contents) = Some d ->
    let after := snd (addVocabulary YAML_parse this contents) in
    getVocabulary after (Vocabulary.doc_namespace d) (Vocabulary.doc_locale d)
                  options = Some (Vocabulary.new d) /\
    (truthy (Vocabulary.getTerm (Vocabulary.new d) declarationName
                                propertyName) = true ->
     getTerm after (Vocabulary.doc_namespace d) (Vocabulary.doc_locale d)
             declarationName propertyName =
     Vocabulary.getTerm (Vocabulary.new d) declarationName propertyName).
Proof.
  intros YAML_parse this contents d options declarationName propertyName
         Hu Hn Hp after.
  destruct (addVocabulary_normal YAML_parse this contents Hn)
    as [d' [_ [Hp' [_ Hafter]]]].
  assert (d' = d) by congruence. subst d'.
  assert (Hu' : unique_identifiers after)
    by apply (unique_run YAML_parse this (OpAdd contents) Hu).
  assert (Hexact :
            exact_match
              (getVocabulariesForNamespace after (Vocabulary.doc_namespace d))
              (toLowerCase (Vocabulary.doc_locale d))
            = Some (Vocabulary.new d)).
  { apply exact_lookup_unique; try reflexivity; [exact Hu'|].
    subst after. rewrite Hafter. simpl. apply In_values_set. }
  split.
  - apply exact_match_getVocabulary. exact Hexact.
  - intros Hterm. rewrite getTerm_unfold. cbv zeta. unfold term_at.
    rewrite (exact_match_getVocabulary _ _ _ None _ Hexact), Hterm.
    reflexivity.
Qed.

Lemma addVocabulary_then_read_witness :
  getVocabulary (snd (addVocabulary sample_parse constructor
                                    (Some text_en_gb)))
                "org.acme" "en-GB" lookup_options
  = Some (Vocabulary.new doc_en_gb) /\
  getTerm (snd (addVocabulary sample_parse constructor (Some text_en_gb)))
          "org.acme" "en-GB" "Vehicle" (Some "vin") = Some "VIN".
Proof.
  destruct (addVocabulary_then_read sample_parse constructor
              (Some text_en_gb) doc_en_gb lookup_options "Vehicle"
              (Some "vin")) as [Hget Hterm].
  - constructor.
  - reflexivity.
  - reflexivity.
  - split; [exact Hget|]. apply Hterm. reflexivity.
Defined.

(** X12. A call of addVocabulary that succeeds, in a store whose entries
    sit under their identifiers, appends the new entry after the others,
    so that what [getVocabulary] found before in exact-match mode it still
    finds afterwards. *)
Theorem addVocabulary_keeps_exact_lookups :
  forall (YAML_parse : string -> option Vocabulary.Doc) this contents
         namespace locale options voc,
    keyed_by_identifier this ->
    fst (addVocabulary YAML_parse this contents) = Normal ->
    not_lookup options = true ->
    getVocabulary this namespace locale options = Some voc ->
    getVocabulary (snd (addVocabulary YAML_parse this contents))
                  namespace locale options = Some voc.
Proof.
  intros YAML_parse this contents namespace locale options voc Hk Hn Hl.
  destruct (addVocabulary_appends YAML_parse this contents Hk Hn)
    as [d [_ [Hafter _]]].
  rewrite !getVocabulary_exact by exact Hl.
  unfold exact_entry, JSObject.values. rewrite Hafter, map_app.
  apply array_find_app.
Qed.

Lemma addVocabulary_keeps_exact_lookups_witness :
  getVocabulary
    (snd (addVocabulary sample_parse
            (removeVocabulary sample_store "org.extra" "fr")
            (Some text_fr)))
    "org.acme" "en-GB" None = Some (Vocabulary.new doc_en_gb).
Proof.
  apply (addVocabulary_keeps_exact_lookups
           sample_parse (removeVocabulary sample_store "org.extra" "fr")
           (Some text_fr) "org.acme" "en-GB" None (Vocabulary.new doc_en_gb)).
  - repeat constructor.
  - reflexivity.
  - reflexivity.
  - reflexivity.
Defined.

(** X13. Removals commute: removing two vocabularies in either order
    leaves the same store. *)
Theorem removeVocabulary_commutes :
  forall this namespace1 locale1 namespace2 locale2,
    removeVocabulary (removeVocabulary this namespace1 locale1)
                     namespace2 locale2 =
    removeVocabulary (removeVocabulary this namespace2 locale2)
                     namespace1 locale1.
Proof.
  intros this namespace1 locale1 namespace2 locale2.
  unfold removeVocabulary. simpl. rewrite delete_commute. reflexivity.
Qed.

(** ** The empty store, listings, and the shape of a validation result *)

Section EmptyStoreFacts.

Lemma findVocabulary_no_candidates locale options :
  findVocabulary locale [] options = None.
Proof.
  induction locale as [locale IH] using tag_induction.
  rewrite findVocabulary_unfold, lastIndexOf_tests. simpl.
  destruct (not_lookup options); [reflexivity|].
  destruct (0 <=? lastIndexOf dash locale) eqn:E; simpl; [|reflexivity].
  apply IH. apply Z.leb_le. exact E.
Qed.

Lemma filter_not_null_all {A B : Type} (f : A -> B) (l : list A) :
  filter_not_null (map (fun m => Some (f m)) l) = map f l.
Proof.
  induction l as [|x r IH]; simpl; [reflexivity|].
  rewrite IH. reflexivity.
Qed.

End EmptyStoreFacts.

(** X14. On an empty store (a new manager, or any manager after [clear])
    every lookup returns null: [getVocabulary] whatever its options, and
    [getTerm]. *)
Theorem empty_store_lookups :
  forall this namespace locale options declarationName propertyName,
    getVocabulary constructor namespace locale options = None /\
    getVocabulary (clear this) namespace locale options = None /\
    getTerm (clear this) namespace locale declarationName propertyName = None.
Proof.
  intros this namespace locale options declarationName propertyName.
  split; [apply findVocabulary_no_candidates|].
  split; [apply findVocabulary_no_candidates|].
  apply getTerm_no_vocabulary. intros tag _. reflexivity.
Qed.

(** X15. [validate] on an empty store reports the namespace of every model
    file of the provider as missing, in the order of the provider, and
    nothing else. *)
Theorem validate_empty_store :
  forall (ModelFile : Type) (ModelFile_getNamespace : ModelFile -> string)
         (Vocabulary_validate : Vocabulary.t -> ModelFile -> Vocabulary.Errors)
         (this : VocabularyManager.t) (modelManager : ModelManager ModelFile),
    validate ModelFile_getNamespace Vocabulary_validate (clear this)
             modelManager =
    {| missingVocabularies :=
         map ModelFile_getNamespace (getModelFiles modelManager);
       additionalVocabularies := [];
       result_vocabularies := JSObject.empty |}.
Proof.
  intros ModelFile getNs Vvalidate this modelManager.
  unfold validate. simpl. f_equal. apply filter_not_null_all.
Qed.

(** X16. In a store with at most one entry per identifier, [validate]
    reports every registered entry once: either among the additional
    vocabularies or with a record of its own, so that the two counts add up
    to the number of entries. *)
Theorem validate_counts_entries :
  forall (ModelFile : Type) (ModelFile_getNamespace : ModelFile -> string)
         (Vocabulary_validate : Vocabulary.t -> ModelFile -> Vocabulary.Errors)
         (this : VocabularyManager.t) (modelManager : ModelManager ModelFile),
    unique_identifiers this ->
    let result :=
      validate ModelFile_getNamespace Vocabulary_validate this modelManager in
    (List.length (additionalVocabularies result)
     + List.length (result_vocabularies result))%nat =
    List.length (JSObject.values (vocabularies this)).
Proof.
  intros ModelFile getNs Vvalidate this modelManager Hu result.
  subst result. rewrite (validate_refines getNs Vvalidate this modelManager Hu).
  unfold validate_spec. simpl.
  induction (JSObject.values (vocabularies this)) as [|v r IH]; simpl;
    [reflexivity|].
  destruct (getModelFile modelManager (Vocabulary.getNamespace v)); simpl.
  - rewrite <- IH. lia.
  - rewrite <- IH. reflexivity.
Qed.

Lemma validate_counts_entries_witness :
  (List.length
     (additionalVocabularies
        (validate (fun m => m) sample_validate sample_store sample_models))
   + List.length
       (result_vocabularies
          (validate (fun m => m) sample_validate sample_store sample_models)))%nat
  = 2%nat.
Proof.
  apply (validate_counts_entries string (fun m => m) sample_validate
                                 sample_store sample_models).
  exact sample_store_unique.
Defined.

(** X17. A call of addVocabulary that succeeds makes the new entry appear
    in the listing of its namespace and in the listing of its locale
    (however the locale is cased in the query), and brings no other new
    entry into any listing. *)
Theorem addVocabulary_listed :
  forall (YAML_parse : string -> option Vocabulary.Doc) this contents d,
    fst (addVocabulary YAML_parse this contents) = Normal ->
    YAML_parse (text_of contents) = Some d ->
    let after := snd (addVocabulary YAML_parse this contents) in
    In (Vocabulary.new d)
       (getVocabulariesForNamespace after (Vocabulary.doc_namespace d)) /\
    In (Vocabulary.new d)
       (getVocabulariesForLocale after (Vocabulary.doc_locale d)) /\
    (forall namespace voc,
        In voc (getVocabulariesForNamespace after namespace) ->
        voc = Vocabulary.new d \/
        In voc (getVocabulariesForNamespace this namespace)) /\
    (forall locale voc,
        In voc (getVocabulariesForLocale after locale) ->
        voc = Vocabulary.new d \/
        In voc (getVocabulariesForLocale this locale)).
Proof.
  intros YAML_parse this contents d Hn Hp after.
  destruct (addVocabulary_normal YAML_parse this contents Hn)
    as [d' [_ [Hp' [_ Hafter]]]].
  assert (d' = d) by congruence. subst d'.
  assert (Hin : In (Vocabulary.new d) (JSObject.values (vocabularies after)))
    by (subst after; rewrite Hafter; simpl; apply In_values_set).
  assert (Hinv : forall voc,
             In voc (JSObject.values (vocabularies after)) ->
             voc = Vocabulary.new d \/
             In voc (JSObject.values (vocabularies this))).
  { subst after. rewrite Hafter. simpl. intros voc.
    apply values_set_inv. }
  unfold getVocabulariesForNamespace, getVocabulariesForLocale.
  repeat split.
  - apply filter_In. split; [exact Hin|apply String.eqb_refl].
  - apply filter_In. split; [exact Hin|apply String.eqb_refl].
  - intros namespace voc H. apply filter_In in H as [H Hns].
    destruct (Hinv voc H) as [->|Hold]; [left; reflexivity|right].
    apply filter_In. split; assumption.
  - intros locale voc H. apply filter_In in H as [H Hloc].
    destruct (Hinv voc H) as [->|Hold]; [left; reflexivity|right].
    apply filter_In. split; assumption.
Qed.

Lemma addVocabulary_listed_witness :
  In (Vocabulary.new doc_en_gb)
     (getVocabulariesForLocale
        (snd (addVocabulary sample_parse constructor (Some text_en_gb)))
        "en-GB").
Proof.
  apply (addVocabulary_listed sample_parse constructor (Some text_en_gb)
                              doc_en_gb).
  - reflexivity.
  - reflexivity.
Defined.
